(** * Correspondent normalisation of apply_v14.2_fixes.py

    The script embeds a JavaScript blob [NORMALIZATION_CODE] in a Python
    (non-raw) triple-quoted string.  Python turns every [\\] of the source
    into one [\], so the JavaScript that n8n executes is the text below
    (after Python's escape processing):

      .replace(/\\s*&\\s*/g, ' ')            -- literal backslash, s*, &, ...
      new RegExp('\\\\b(' + ... + ')\\\\b')  -- literal backslash, b, ...
      .replace(/\\b\\w/g, ...)               -- literal backslash, b, \, w
      .replace(/[\\u0300-\\u036f]/g, '')     -- the class [\ u 0 3 0 0-\ u 0 3 6 f]

    In a JavaScript regular expression [\\] is a literal backslash, so each of
    these patterns requires a backslash in the input.  The development below
    embeds the regular expressions as they are executed.

    JavaScript strings are lists of UTF-16 code units, Python strings lists of
    code points; both are modelled as [list Z]. *)

From Stdlib Require Import ZArith List Bool String Ascii Lia.
Import ListNotations.
Open Scope Z_scope.

(** ** Strings *)

Definition u (s : string) : list Z :=
  map (fun a => Z.of_nat (nat_of_ascii a)) (list_ascii_of_string s).

Fixpoint list_eqb (a b : list Z) : bool :=
  match a, b with
  | [], [] => true
  | x :: a', y :: b' => (x =? y) && list_eqb a' b'
  | _, _ => false
  end.

(** [String.prototype.startsWith] / Python prefix test *)
Fixpoint prefixb (p s : list Z) : bool :=
  match p, s with
  | [], _ => true
  | x :: p', y :: s' => (x =? y) && prefixb p' s'
  | _ :: _, [] => false
  end.

(** Python [needle in haystack] on strings *)
Fixpoint substrb (p s : list Z) : bool :=
  prefixb p s || match s with [] => false | _ :: s' => substrb p s' end.

(** ECMAScript WhiteSpace and LineTerminator code units (used by [trim]). *)
Definition is_ws (c : Z) : bool :=
  (9 <=? c) && (c <=? 13) || (c =? 32) || (c =? 160) || (c =? 5760)
  || (8192 <=? c) && (c <=? 8202) || (c =? 8232) || (c =? 8233)
  || (c =? 8239) || (c =? 8287) || (c =? 12288) || (c =? 65279).

Fixpoint drop_while (f : Z -> bool) (s : list Z) : list Z :=
  match s with
  | [] => []
  | c :: t => if f c then drop_while f t else s
  end.

(** [String.prototype.trim] *)
Definition trim (s : list Z) : list Z :=
  rev (drop_while is_ws (rev (drop_while is_ws s))).

(** ** Global [String.prototype.replace] with a regular expression

    A pattern is embedded as a matcher: [m s = Some n] when the regular
    expression, tried at the start of [s] (with its backtracking), matches the
    first [n] code units of [s]; every pattern of the script matches at least
    one code unit.  [rep] computes the replacement from the matched text.
    The scan is the one of a global replace: try at the current position; on
    a match emit the replacement and resume after the match, otherwise copy
    one code unit and move on.  [skip] counts the code units of the current
    match that are still to be passed over. *)
Fixpoint greplace (m : list Z -> option nat) (rep : list Z -> list Z)
    (skip : nat) (s : list Z) : list Z :=
  match s with
  | [] => []
  | c :: t =>
    match skip with
    | S k => greplace m rep k t
    | O =>
      match m s with
      | Some (S n) => rep (firstn (S n) s) ++ greplace m rep n t
      | _ => c :: greplace m rep O t
      end
    end
  end.

Definition replace_all (m : list Z -> option nat) (rep : list Z -> list Z) (s : list Z) :=
  greplace m rep O s.

Definition const_rep (r : list Z) : list Z -> list Z := fun _ => r.

Fixpoint count_while (f : Z -> bool) (s : list Z) : nat :=
  match s with
  | c :: t => if f c then S (count_while f t) else O
  | [] => O
  end.

(** code units used below *)
Definition BSL : Z := 92.   (* \ *)
Definition SP : Z := 32.

Definition is_s (c : Z) : bool := c =? 115.                  (* s *)
Definition is_s_ci (c : Z) : bool := (c =? 115) || (c =? 83).  (* s, S under /i *)

(** case-insensitive comparison of a pattern code unit with an input code
    unit, for the ASCII patterns of the script (non-unicode /i mode: a
    non-ASCII code unit never folds onto an ASCII one) *)
Definition ci_eq (p c : Z) : bool :=
  (p =? c) || ((97 <=? p) && (p <=? 122) && (c =? p - 32)).

Fixpoint prefix_ci (p s : list Z) : bool :=
  match p, s with
  | [], _ => true
  | x :: p', y :: s' => ci_eq x y && prefix_ci p' s'
  | _ :: _, [] => false
  end.

(** [/[.,]/g] *)
Definition m_punct (s : list Z) : option nat :=
  match s with
  | c :: _ => if (c =? 46) || (c =? 44) then Some 1%nat else None
  | [] => None
  end.

(** [/\\s*&\\s*/g]: backslash, s*, &, backslash, s* *)
Definition m_amp (s : list Z) : option nat :=
  match s with
  | b :: t =>
    if b =? BSL then
      let k := count_while is_s t in
      match skipn k t with
      | a :: b2 :: w =>
        if (a =? 38) && (b2 =? BSL) then Some (1 + k + 2 + count_while is_s w)%nat
        else None
      | _ => None
      end
    else None
  | [] => None
  end.

(** [/\\s+and\\s+/gi]: backslash, [sS]+, and (any case), backslash, [sS]+ *)
Definition m_and (s : list Z) : option nat :=
  match s with
  | b :: t =>
    if b =? BSL then
      let k := count_while is_s_ci t in
      match k with
      | O => None
      | _ =>
        let w := skipn k t in
        if prefix_ci (u "and" ++ [BSL]) w then
          let k2 := count_while is_s_ci (skipn 4 w) in
          match k2 with
          | O => None
          | _ => Some (1 + k + 4 + k2)%nat
          end
        else None
      end
    else None
  | [] => None
  end.

(** [/\\s+/g]: backslash, s+ *)
Definition m_ws (s : list Z) : option nat :=
  match s with
  | b :: t =>
    if b =? BSL then
      match count_while is_s t with
      | O => None
      | k => Some (S k)
      end
    else None
  | [] => None
  end.

(** [LEGAL_SUFFIXES]; an entry with an optional final [\.?] is listed as its
    two expansions, the longer first (greedy [?]), which is the order in which
    the alternation backtracks. *)
Definition LEGAL_SUFFIXES : list (list Z) :=
  map u ["gmbh"; "kg"; "kgaa"; "ag"; "se"; "llc"; "inc"; "corp"; "corporation";
         "ltd"; "limited"; "plc"; "s.a."; "s.a"; "s.r.l."; "s.r.l"; "s.p.a."; "s.p.a";
         "bv"; "nv"; "oy"; "ab"; "aps"; "as"; "co"; "company"; "rcv";
         "ohg"; "gbr"; "ev"; "eg"; "ges.m.b.h."; "ges.m.b.h"; "stg"]%string.

Fixpoint first_alt (alts : list (list Z)) (s : list Z) : option nat :=
  match alts with
  | [] => None
  | w :: rest =>
    if prefix_ci (w ++ [BSL; 98])%list s then Some (List.length w + 2)%nat
    else first_alt rest s
  end.

(** [new RegExp('\\\\b(' + LEGAL_SUFFIXES.join('|') + ')\\\\b', 'gi')]:
    backslash, b (any case), one alternative (any case), backslash, b *)
Definition m_suffix (s : list Z) : option nat :=
  if prefix_ci [BSL; 98] s then
    match first_alt LEGAL_SUFFIXES (skipn 2 s) with
    | Some n => Some (2 + n)%nat
    | None => None
    end
  else None.

(** [/\\s*[&+]\\s*$/g]: backslash, s*, & or +, backslash, s*, end of input *)
Definition m_trail (s : list Z) : option nat :=
  match s with
  | b :: t =>
    if b =? BSL then
      match skipn (count_while is_s t) t with
      | a :: b2 :: w =>
        if ((a =? 38) || (a =? 43)) && (b2 =? BSL) && forallb is_s w
        then Some (List.length s) else None
      | _ => None
      end
    else None
  | [] => None
  end.

(** [/\\b\\w/g]: the four code units backslash, b, backslash, w *)
Definition m_title (s : list Z) : option nat :=
  if prefixb [BSL; 98; BSL; 119] s then Some 4%nat else None.

(** [c => c.toUpperCase()], applied to the matched text (ASCII) *)
Definition ascii_upper (c : Z) : Z := if (97 <=? c) && (c <=? 122) then c - 32 else c.

(** [ALIASES], in insertion order ([Object.entries]) *)
Definition ALIASES : list (list Z * list Z) :=
  map (fun '(k, v) => (u k, u v))
  [("boehringer ingelheim rcv & co", "Boehringer Ingelheim");
   ("boehringer ingelheim rcv", "Boehringer Ingelheim");
   ("magistrat wien-mba f.d. 21. bezirk", "Magistrat Wien");
   ("magistrat wien", "Magistrat Wien");
   ("wiener linien gmbh & co", "Wiener Linien");
   ("magenta telekom", "Magenta Telekom");
   ("magenta", "Magenta Telekom")]%string.

(** the alias loop: first key (in order) that [lowerName] starts with *)
Fixpoint alias_lookup (tbl : list (list Z * list Z)) (lowerName : list Z) : option (list Z) :=
  match tbl with
  | [] => None
  | (k, v) :: rest => if prefixb k lowerName then Some v else alias_lookup rest lowerName
  end.

Definition Unknown : list Z := u "Unknown".

(** JavaScript values passed as [name] *)
Inductive jsval :=
| JSUndefined
| JSNull
| JSBool (b : bool)
| JSNumber (z : Z)
| JSString (s : list Z)
| JSObject.

Section Normalize.

(** [String.prototype.toLowerCase] and [String.prototype.normalize('NFD')]
    are library functions on UTF-16 strings; they are kept abstract. *)
Variable toLowerCase : list Z -> list Z.
Variable normalizeNFD : list Z -> list Z.

(** Step 3 of [normalizeCorrespondent] (lines 55-70), from [name]. *)
Definition strip_pipeline (name : list Z) : list Z :=
  let n := trim (replace_all m_ws (const_rep [SP])
             (replace_all m_and (const_rep [SP])
             (replace_all m_amp (const_rep [SP])
             (replace_all m_punct (const_rep [SP]) name)))) in
  let n := trim (replace_all m_ws (const_rep [SP]) (replace_all m_suffix (const_rep []) n)) in
  let n := trim (replace_all m_trail (const_rep []) n) in
  replace_all m_title (map ascii_upper) n.

(** [normalizeCorrespondent(name)] (lines 42-74); logging omitted. *)
Definition normalizeCorrespondent (name : jsval) : list Z :=
  match name with
  | JSString [] => Unknown                    (* !name *)
  | JSString s =>
    let lowerName := trim (toLowerCase s) in
    match alias_lookup ALIASES lowerName with
    | Some value => value
    | None =>
      match strip_pipeline s with
      | [] => Unknown                          (* n || 'Unknown' *)
      | n => n
      end
    end
  | _ => Unknown                               (* typeof name !== 'string' *)
  end.

(** [/[^a-z0-9]+/g] replaced by [-]: [inrun] is set inside a run *)
Definition is_alnum (c : Z) : bool := (97 <=? c) && (c <=? 122) || (48 <=? c) && (c <=? 57).
Definition HY : Z := 45.

Fixpoint hyphenate (inrun : bool) (s : list Z) : list Z :=
  match s with
  | [] => []
  | c :: t =>
    if is_alnum c then c :: hyphenate false t
    else if inrun then hyphenate true t
    else HY :: hyphenate true t
  end.

(** [/[\\u0300-\\u036f]/g]: the class holds backslash, u, 0, 3, 6, f and the
    range 0-backslash (U+0030..U+005C) *)
Definition in_mark_class (c : Z) : bool :=
  (48 <=? c) && (c <=? 92) || (c =? 117) || (c =? 102).

Definition is_hy (c : Z) : bool := c =? HY.

(** [generateSlug(name)] (lines 76-83) *)
Definition generateSlug (name : list Z) : list Z :=
  let s := normalizeNFD (toLowerCase name) in
  let s := filter (fun c => negb (in_mark_class c)) s in
  let s := hyphenate false s in
  let s := rev (drop_while is_hy (rev (drop_while is_hy s))) in   (* /^-+|-+$/g *)
  firstn 50 s.

End Normalize.

(** ** Concrete instances of the library functions

    [js_lower] is [toLowerCase] on code units below U+0100 (ASCII and
    Latin-1); [nfd_latin1] is the canonical decomposition of the Latin-1
    letters with a diacritic.  Both leave other code units unchanged, so they
    agree with JavaScript on the Latin-1 inputs used below. *)
Definition lower_cu (c : Z) : Z :=
  if (65 <=? c) && (c <=? 90) || (192 <=? c) && (c <=? 222) && negb (c =? 215)
  then c + 32 else c.

Definition js_lower (s : list Z) : list Z := map lower_cu s.

(** base letter and combining mark of a Latin-1 letter (lower case offset) *)
Definition latin1_decomp (c : Z) : option (Z * Z) :=
  let base := if 224 <=? c then 97 else 65 in
  match (if 224 <=? c then c - 224 else c - 192) with
  | 0 => Some (base, 768) | 1 => Some (base, 769) | 2 => Some (base, 770)
  | 3 => Some (base, 771) | 4 => Some (base, 776) | 5 => Some (base, 778)
  | 7 => Some (base + 2, 807)
  | 8 => Some (base + 4, 768) | 9 => Some (base + 4, 769) | 10 => Some (base + 4, 770)
  | 11 => Some (base + 4, 776)
  | 12 => Some (base + 8, 768) | 13 => Some (base + 8, 769) | 14 => Some (base + 8, 770)
  | 15 => Some (base + 8, 776)
  | 17 => Some (base + 13, 771)
  | 18 => Some (base + 14, 768) | 19 => Some (base + 14, 769) | 20 => Some (base + 14, 770)
  | 21 => Some (base + 14, 771) | 22 => Some (base + 14, 776)
  | 25 => Some (base + 20, 768) | 26 => Some (base + 20, 769) | 27 => Some (base + 20, 770)
  | 28 => Some (base + 20, 776)
  | 29 => Some (base + 24, 769)
  | 31 => if c =? 255 then Some (121, 776) else None
  | _ => None
  end.

Definition nfd_latin1 (s : list Z) : list Z :=
  flat_map (fun c => if (192 <=? c) && (c <=? 255) then
                       match latin1_decomp c with
                       | Some (b, m) => [b; m]
                       | None => [c]
                       end
                     else [c]) s.

Definition normalize_js := normalizeCorrespondent js_lower.
Definition slug_js := generateSlug js_lower nfd_latin1.

Set Warnings "-register-all".

(** ** [apply_fixes] (Python, lines 186-256)

    The loaded JSON document ([json.load]) is a tree of Python values; a
    [dict] keeps insertion order and is an association list.  [None] stands
    for the function raising (KeyError, TypeError, AttributeError). Printing
    is omitted. *)
Inductive pyjson :=
| PNull
| PBool (b : bool)
| PNum (z : Z)
| PStr (s : list Z)
| PList (l : list pyjson)
| PDict (kv : list (list Z * pyjson)).

Fixpoint dict_get (k : list Z) (kv : list (list Z * pyjson)) : option pyjson :=
  match kv with
  | [] => None
  | (k', v) :: rest => if list_eqb k k' then Some v else dict_get k rest
  end.

(** [d[k] = v]: overwrite in place, or append a new key *)
Fixpoint dict_set (k : list Z) (v : pyjson) (kv : list (list Z * pyjson))
    : list (list Z * pyjson) :=
  match kv with
  | [] => [(k, v)]
  | (k', v') :: rest => if list_eqb k k' then (k', v) :: rest else (k', v') :: dict_set k v rest
  end.

(** Python [needle in x] for a string needle; [None] is the TypeError of a
    value that is not a container *)
Definition py_contains (needle : list Z) (x : pyjson) : option bool :=
  match x with
  | PStr s => Some (substrb needle s)
  | PList l => Some (existsb (fun y => match y with PStr s => list_eqb s needle | _ => false end) l)
  | PDict kv => Some (existsb (fun kv1 => list_eqb (fst kv1) needle) kv)
  | _ => None
  end.

(** [str.replace(old, new)]: left to right, non-overlapping ([old] non-empty) *)
Definition m_lit (old : list Z) (s : list Z) : option nat :=
  if prefixb old s then Some (List.length old) else None.

Definition py_replace (old new s : list Z) : list Z :=
  replace_all (m_lit old) (const_rep new) s.

Fixpoint map_opt (f : pyjson -> option pyjson) (l : list pyjson) : option (list pyjson) :=
  match l with
  | [] => Some []
  | x :: rest =>
    match f x with
    | Some y => match map_opt f rest with Some ys => Some (y :: ys) | None => None end
    | None => None
    end
  end.

(** [node.get('name') == target] *)
Definition node_name_is (kv : list (list Z * pyjson)) (target : list Z) : bool :=
  match dict_get (u "name") kv with
  | Some (PStr n) => list_eqb n target
  | _ => false
  end.

(** one [for node in nodes: if node.get('name') == target: ...] loop body:
    [.get] needs a dict *)
Definition fix_node (target : list Z)
    (patch : list (list Z * pyjson) -> option (list (list Z * pyjson)))
    (node : pyjson) : option pyjson :=
  match node with
  | PDict kv => if node_name_is kv target then option_map PDict (patch kv) else Some node
  | _ => None
  end.

(** [node['parameters']] is a dict, updated in place by [f] *)
Definition with_parameters (f : list (list Z * pyjson) -> option (list (list Z * pyjson)))
    (kv : list (list Z * pyjson)) : option (list (list Z * pyjson)) :=
  match dict_get (u "parameters") kv with
  | Some (PDict p) =>
    match f p with
    | Some p' => Some (dict_set (u "parameters") (PDict p') kv)
    | None => None
    end
  | _ => None
  end.

Definition QUERY_PARAMETERS : pyjson :=
  PDict [(u "parameters",
          PList [PDict [(u "name", PStr (u "page_size")); (u "value", PStr (u "1000"))]])].

Definition patch_pagination (p : list (list Z * pyjson)) :=
  Some (dict_set (u "queryParameters") QUERY_PARAMETERS (dict_set (u "sendQuery") (PBool true) p)).

Definition patch_code (code : list Z) (p : list (list Z * pyjson)) :=
  Some (dict_set (u "jsCode") (PStr code) p).

(** Fixes 4 and 5: [cur = p.get(key, '')]; [if 'correspondent_name' in cur:
    p[key] = cur.replace(old, new)] *)
Definition patch_replace (key old new : list Z) (p : list (list Z * pyjson)) :=
  let cur := match dict_get key p with Some c => c | None => PStr [] end in
  match py_contains (u "correspondent_name") cur with
  | None => None
  | Some false => Some p
  | Some true =>
    match cur with
    | PStr c => Some (dict_set key (PStr (py_replace old new c)) p)
    | _ => None                                  (* no .replace *)
    end
  end.

Section ApplyFixes.

(** the two JavaScript blobs written into the nodes; their text does not
    matter here *)
Variable GENERATE_STORAGE_PATH_CODE GET_STORAGE_PATH_ID_CODE : list Z.

Definition fix_passes (nodes : list pyjson) : option (list pyjson) :=
  match map_opt (fix_node (u "Check Storage Paths") (with_parameters patch_pagination)) nodes with
  | None => None
  | Some l1 =>
  match map_opt (fix_node (u "Generate Storage Path")
                  (with_parameters (patch_code GENERATE_STORAGE_PATH_CODE))) l1 with
  | None => None
  | Some l2 =>
  match map_opt (fix_node (u "Get Storage Path ID")
                  (with_parameters (patch_code GET_STORAGE_PATH_ID_CODE))) l2 with
  | None => None
  | Some l3 =>
  match map_opt (fix_node (u "Check Correspondent Exists")
                  (with_parameters (patch_replace (u "jsCode") (u "data.correspondent_name")
                     (u "data.correspondent_canonical || data.correspondent_name")))) l3 with
  | None => None
  | Some l4 =>
    map_opt (fix_node (u "Create Correspondent")
               (with_parameters (patch_replace (u "jsonBody") (u "$json.correspondent_name")
                  (u "$json.correspondent_canonical")))) l4
  end end end end.

(** [apply_fixes], from the loaded document [workflow]: [nodes] is the list
    object inside the document, so the loops update the document in place.
    Iterating an empty dict or string does nothing; any other non-list
    [nodes] raises. *)
Definition apply_fixes (workflow : pyjson) : option pyjson :=
  match workflow with
  | PDict kv =>
    match dict_get (u "nodes") kv with
    | None => Some workflow                          (* nodes = [] *)
    | Some (PList l) =>
      match fix_passes l with
      | Some l' => Some (PDict (dict_set (u "nodes") (PList l') kv))
      | None => None
      end
    | Some (PDict []) | Some (PStr []) => Some workflow
    | Some _ => None
    end
  | _ => None                                        (* no .get *)
  end.

End ApplyFixes.

Definition nodes_of (w : pyjson) : list pyjson :=
  match w with
  | PDict kv => match dict_get (u "nodes") kv with Some (PList l) => l | _ => [] end
  | _ => []
  end.

Definition connections_of (w : pyjson) : option pyjson :=
  match w with PDict kv => dict_get (u "connections") kv | _ => None end.

Definition FIX_TARGETS : list (list Z) :=
  map u ["Check Storage Paths"; "Generate Storage Path"; "Get Storage Path ID";
         "Check Correspondent Exists"; "Create Correspondent"]%string.

Definition targeted (n : pyjson) : bool :=
  match n with PDict kv => existsb (node_name_is kv) FIX_TARGETS | _ => false end.

(** ** Predicates on slugs and names *)

(** [^[a-z0-9]*(-[a-z0-9]+)*$] as an automaton: state 0 in the leading
    [[a-z0-9]*], 1 just after a hyphen, 2 inside a [[a-z0-9]+] after it *)
Fixpoint slug_re_go (st : nat) (s : list Z) : bool :=
  match s with
  | [] => negb (Nat.eqb st 1)
  | c :: t =>
    if is_alnum c then slug_re_go (if Nat.eqb st 1 then 2 else st) t
    else if is_hy c then (if Nat.eqb st 1 then false else slug_re_go 1 t)
    else false
  end.

Definition slug_regex (s : list Z) : bool := slug_re_go 0 s.

Fixpoint no_double_hy (s : list Z) : bool :=
  match s with
  | a :: ((b :: _) as t) => negb (is_hy a && is_hy b) && no_double_hy t
  | _ => true
  end.

(** only [a-z0-9] and [-], no leading hyphen, no [--], at most 50 long *)
Definition slug_shape (s : list Z) : bool :=
  forallb (fun c => is_alnum c || is_hy c) s && negb (is_hy (hd 0 s))
  && no_double_hy s && (List.length s <=? 50)%nat.

(** leading or trailing JavaScript white space *)
Definition has_outer_ws (s : list Z) : bool :=
  match s with
  | [] => false
  | c :: _ => is_ws c || is_ws (hd 0 (rev s))
  end.

(** a small workflow document *)
Definition sample_workflow : pyjson :=
  PDict [(u "name", PStr (u "Paperless AI Processing"));
         (u "nodes", PList [PDict [(u "name", PStr (u "Check Storage Paths"));
                                   (u "parameters", PDict [(u "url", PStr (u "/api/storage_paths/"))])];
                            PDict [(u "name", PStr (u "Extract Metadata"));
                                   (u "parameters", PDict [])]]);
         (u "connections", PDict [(u "Extract Metadata", PList [])])].

Definition sample_fixed : pyjson :=
  match apply_fixes [] [] sample_workflow with Some w => w | None => PNull end.

(** ** The n8n Code nodes written by Fix 2 and Fix 3

    An n8n item's [json] is a JSON object; it is read as the same JSON tree
    as above ([pyjson]), with property order kept as insertion order.  A
    missing property reads as [undefined] ([None]). *)

(** JavaScript truthiness of a JSON value (JSON has no NaN) *)
Definition truthy (v : pyjson) : bool :=
  match v with
  | PNull => false
  | PBool b => b
  | PNum z => negb (z =? 0)
  | PStr [] => false
  | _ => true
  end.

(** [a || b] where [a] may be [undefined] *)
Definition js_or (a : option pyjson) (b : pyjson) : pyjson :=
  match a with
  | Some v => if truthy v then v else b
  | None => b
  end.

(** a JSON value passed as a JavaScript argument *)
Definition to_jsval (v : pyjson) : jsval :=
  match v with
  | PNull => JSNull
  | PBool b => JSBool b
  | PNum z => JSNumber z
  | PStr s => JSString s
  | PList _ | PDict _ => JSObject
  end.

Definition TEMPLATE_TAIL : list Z := u "/{created_year}-{created_month}-{created_day}-{title}".

Section StoragePathNodes.

Variable toLowerCase normalizeNFD : list Z -> list Z.

(** [ToString] of a JSON value that is not a string, used by [+] *)
Variable to_string_other : pyjson -> list Z.

Definition js_str (v : pyjson) : list Z :=
  match v with PStr s => s | _ => to_string_other v end.

(** body of GENERATE_STORAGE_PATH_CODE (lines 92-116) on [data]; logging
    omitted; the result is the [json] of the returned item *)
Definition generate_storage_path (data : list (list Z * pyjson)) : list (list Z * pyjson) :=
  let category := js_or (dict_get (u "storage_category") data) (PStr (u "reference-documents")) in
  let rawCorrespondent := js_or (dict_get (u "correspondent_name") data) (PStr Unknown) in
  let correspondent := normalizeCorrespondent toLowerCase (to_jsval rawCorrespondent) in
  let correspondentSlug := generateSlug toLowerCase normalizeNFD correspondent in
  let pathTemplate := js_str category ++ u "/" ++ correspondentSlug ++ TEMPLATE_TAIL in
  let pathName := js_str category ++ u " - " ++ correspondent in
  dict_set (u "storage_path_name") (PStr pathName)
    (dict_set (u "storage_path_template") (PStr pathTemplate)
      (dict_set (u "correspondent_canonical") (PStr correspondent) data)).

(** [createResult.statusCode >= 400] for a defined [statusCode] (the
    relational comparison with its ToNumber coercion) *)
Variable ge400 : pyjson -> bool.

Inductive js_error :=
| ErrorMsg (msg : list Z)       (* throw new Error(msg) *)
| TypeError.                    (* calling a method a value does not have *)

Inductive js_outcome :=
| Returns (json : list (list Z * pyjson))
| Throws (e : js_error).

Definition DUPLICATE_MSG : list Z :=
  u "Storage path creation failed due to duplicate. Please re-upload document or check "
  ++ [34] ++ u "Check Storage Paths" ++ [34] ++ u " pagination settings.".

Definition HTTP_FAILED_PREFIX : list Z := u "Create Storage Path HTTP request failed: ".

Definition NO_ID_MSG : list Z := u "Failed to get storage path ID - check previous nodes".

(** body of GET_STORAGE_PATH_ID_CODE (lines 120-182) on the [json] of the
    Match Storage Path item and of the input item (both objects, so
    [createResult && ...] only tests the property); logging omitted *)
Definition get_storage_path_id (matchResult createResult : list (list Z * pyjson)) : js_outcome :=
  let http_error :=
    match dict_get (u "statusCode") createResult with Some v => ge400 v | None => false end in
  if http_error then
    match js_or (dict_get (u "error") createResult)
                (js_or (dict_get (u "message") createResult) (PStr [])) with
    | PStr errorMsg =>
      if substrb (u "unique constraint") (toLowerCase errorMsg)
         || substrb (u "already exists") (toLowerCase errorMsg)
      then Throws (ErrorMsg DUPLICATE_MSG)
      else Throws (ErrorMsg (HTTP_FAILED_PREFIX ++ errorMsg))
    | _ => Throws TypeError                      (* errorMsg.toLowerCase *)
    end
  else
    let created :=
      match dict_get (u "id") createResult with
      | Some v => if truthy v then (Some v, u "created") else (None, u "unknown")
      | None => (None, u "unknown")
      end in
    let '(storagePathId, source) :=
      match dict_get (u "storage_path_id") matchResult with
      | Some v => if truthy v then (Some v, u "existing") else created
      | None => created
      end in
    match storagePathId with
    | Some id =>
      Returns (dict_set (u "storage_path_source") (PStr source)
                 (dict_set (u "storage_path_id") id matchResult))
    | None => Throws (ErrorMsg NO_ID_MSG)
    end.

End StoragePathNodes.

(** the version update of [main] (lines 283-285) on the fixed workflow *)
Definition set_version (w : pyjson) : option pyjson :=
  match w with
  | PDict kv =>
    let kv1 := dict_set (u "name") (PStr (u "Paperless AI Processing v14.2")) kv in
    let meta := match dict_get (u "meta") kv1 with Some m => m | None => PDict [] end in
    let kv2 := dict_set (u "meta") meta kv1 in
    match meta with
    | PDict m => Some (PDict (dict_set (u "meta") (PDict (dict_set (u "version") (PStr (u "14.2")) m)) kv2))
    | _ => None                                  (* item assignment on a non-dict *)
    end
  | _ => None
  end.

(** what [main] writes: [apply_fixes], then the version update *)
Definition fix_and_version (g1 g2 : list Z) (w : pyjson) : option pyjson :=
  match apply_fixes g1 g2 w with
  | Some w1 => set_version w1
  | None => None
  end.

(** [v >= 400] for a number, [null] or a boolean (ToNumber gives the number,
    0, or 0 and 1); a concrete instance for the examples below *)
Definition ge400_num (v : pyjson) : bool :=
  match v with PNum z => 400 <=? z | _ => false end.

(** two keys of a table, one a prefix of the other, map to the same value *)
Definition prefix_consistent (tbl : list (list Z * list Z)) : bool :=
  forallb (fun kv1 => forallb (fun kv2 =>
    negb (prefixb (fst kv1) (fst kv2)) || list_eqb (snd kv1) (snd kv2)) tbl) tbl.

Section GetStoragePathIdPredicates.

Variable toLowerCase : list Z -> list Z.
Variable ge400 : pyjson -> bool.

(** the [createResult.statusCode >= 400] test fails (or [statusCode] is
    missing) *)
Definition no_http_error (createResult : list (list Z * pyjson)) : Prop :=
  match dict_get (u "statusCode") createResult with
  | None => True
  | Some v => ge400 v = false
  end.

(** a property that is missing or falsy *)
Definition falsy_or_missing (k : list Z) (obj : list (list Z * pyjson)) : Prop :=
  match dict_get k obj with
  | None => True
  | Some v => truthy v = false
  end.

(** the error raised for an HTTP error with message [msg] *)
Definition http_error_of (msg : list Z) : js_error :=
  if substrb (u "unique constraint") (toLowerCase msg) || substrb (u "already exists") (toLowerCase msg)
  then ErrorMsg DUPLICATE_MSG
  else ErrorMsg (HTTP_FAILED_PREFIX ++ msg).

End GetStoragePathIdPredicates.

(** the [i]-th node of a workflow is a dict named [t] *)
Definition node_named (w : pyjson) (i : nat) (t : list Z) : bool :=
  match nth_error (nodes_of w) i with
  | Some (PDict kv) => node_name_is kv t
  | _ => false
  end.

(** [nodes[i]['parameters'][key]] *)
Definition node_param (w : pyjson) (i : nat) (key : list Z) : option pyjson :=
  match nth_error (nodes_of w) i with
  | Some (PDict kv) =>
    match dict_get (u "parameters") kv with
    | Some (PDict p) => dict_get key p
    | _ => None
    end
  | _ => None
  end.

(** a workflow with the five patched nodes *)
Definition sample_kv2 : list (list Z * pyjson) :=
  [(u "name", PStr (u "Paperless AI Processing v14.1"));
         (u "nodes", PList [
            PDict [(u "name", PStr (u "Check Storage Paths"));
                   (u "parameters", PDict [(u "url", PStr (u "/api/storage_paths/"))])];
            PDict [(u "name", PStr (u "Generate Storage Path"));
                   (u "parameters", PDict [(u "jsCode", PStr (u "return $input.all();"))])];
            PDict [(u "name", PStr (u "Get Storage Path ID"));
                   (u "parameters", PDict [(u "jsCode", PStr (u "return $input.all();"))])];
            PDict [(u "name", PStr (u "Check Correspondent Exists"));
                   (u "parameters", PDict [(u "jsCode", PStr (u "const n = data.correspondent_name;"))])];
            PDict [(u "name", PStr (u "Create Correspondent"));
                   (u "parameters", PDict [(u "jsonBody", PStr (u "={{ {name: $json.correspondent_name} }}"))])];
            PDict [(u "name", PStr (u "Extract Metadata")); (u "parameters", PDict [])]]);
         (u "connections", PDict []);
         (u "meta", PDict [(u "version", PStr (u "14.1")); (u "instanceId", PStr (u "abc"))])].

Definition sample_workflow2 : pyjson := PDict sample_kv2.

Definition GEN_CODE : list Z := u "// generate storage path".
Definition GET_CODE : list Z := u "// get storage path id".

Definition sample2_fixed : pyjson :=
  match apply_fixes GEN_CODE GET_CODE sample_workflow2 with Some w => w | None => PNull end.

Definition sample2_fixed_twice : pyjson :=
  match apply_fixes GEN_CODE GET_CODE sample2_fixed with Some w => w | None => PNull end.

Definition sample2_written : pyjson :=
  match fix_and_version GEN_CODE GET_CODE sample_workflow2 with Some w => w | None => PNull end.

(** * Lemmas *)

(** ** Lists *)

Lemma drop_while_suffix (f : Z -> bool) (l : list Z) :
  exists p, l = p ++ drop_while f l.
Proof.
  induction l as [|c t [p Hp]]; simpl.
  - exists []. reflexivity.
  - destruct (f c).
    + exists (c :: p). simpl. congruence.
    + exists []. reflexivity.
Qed.

Lemma drop_while_head (f : Z -> bool) (l : list Z) :
  drop_while f l = [] \/ f (hd 0 (drop_while f l)) = false.
Proof.
  induction l as [|c t IH]; simpl; auto.
  destruct (f c) eqn:E; simpl; auto.
Qed.

Lemma drop_while_id (f : Z -> bool) (l : list Z) :
  (l = [] \/ f (hd 0 l) = false) -> drop_while f l = l.
Proof.
  destruct l as [|c t]; simpl; auto.
  intros [H|H]; [discriminate|]. now rewrite H.
Qed.

Lemma drop_while_nil (f : Z -> bool) (l : list Z) :
  drop_while f l = [] -> forallb f l = true.
Proof.
  induction l as [|c t IH]; simpl; auto.
  destruct (f c) eqn:E; simpl; auto. discriminate.
Qed.

Lemma forallb_drop_while (f : Z -> bool) (l : list Z) :
  forallb f l = true -> drop_while f l = [].
Proof.
  induction l as [|c t IH]; simpl; auto.
  destruct (f c); simpl; auto. discriminate.
Qed.

Lemma hd_app (x y : list Z) : x <> [] -> hd 0 (x ++ y) = hd 0 x.
Proof. destruct x; simpl; congruence. Qed.

Lemma in_drop_while (f : Z -> bool) (l : list Z) (x : Z) :
  In x (drop_while f l) -> In x l.
Proof.
  destruct (drop_while_suffix f l) as [p Hp]. intros H.
  rewrite Hp. apply in_or_app. auto.
Qed.

Lemma in_trim (s : list Z) (x : Z) : In x (trim s) -> In x s.
Proof.
  unfold trim. intros H.
  apply in_rev in H. apply in_drop_while in H. apply in_rev in H.
  apply in_drop_while in H. exact H.
Qed.

Lemma forallb_rev' (f : Z -> bool) (l : list Z) :
  forallb f (rev l) = true -> forallb f l = true.
Proof.
  rewrite !forallb_forall. intros H x Hx. apply H, in_rev. now rewrite rev_involutive.
Qed.

(** ** [trim] *)

Definition trimmed (l : list Z) : Prop :=
  l = [] \/ (is_ws (hd 0 l) = false /\ is_ws (hd 0 (rev l)) = false).

Lemma trim_trimmed (s : list Z) : trimmed (trim s).
Proof.
  unfold trim, trimmed.
  set (a := drop_while is_ws s).
  set (b := drop_while is_ws (rev a)).
  destruct b as [|c t] eqn:Eb; [left; reflexivity|right].
  rewrite rev_involutive. split.
  - destruct (drop_while_suffix is_ws (rev a)) as [p Hp].
    fold b in Hp. rewrite Eb in Hp.
    assert (Ha : a = rev (c :: t) ++ rev p).
    { rewrite <- rev_app_distr, <- Hp, rev_involutive. reflexivity. }
    destruct (drop_while_head is_ws s) as [H|H]; fold a in H.
    + rewrite H in Ha. destruct (rev (c :: t)) eqn:E; [|discriminate].
      apply (f_equal (@List.length Z)) in E. rewrite length_rev in E. discriminate.
    + rewrite Ha in H. rewrite hd_app in H; [exact H|].
      intro E. apply (f_equal (@List.length Z)) in E. rewrite length_rev in E. discriminate.
  - destruct (drop_while_head is_ws (rev a)) as [H|H]; fold b in H;
      rewrite Eb in H; [discriminate|exact H].
Qed.

Lemma trim_id (l : list Z) : trimmed l -> trim l = l.
Proof.
  unfold trim. intros [->|[H1 H2]]; [reflexivity|].
  rewrite (drop_while_id is_ws l) by auto.
  rewrite (drop_while_id is_ws (rev l)) by auto.
  apply rev_involutive.
Qed.

Lemma trim_idem (s : list Z) : trim (trim s) = trim s.
Proof. apply trim_id, trim_trimmed. Qed.

Lemma trim_nil_all_ws (s : list Z) : trim s = [] -> forallb is_ws s = true.
Proof.
  unfold trim. intros H.
  apply (f_equal (@rev Z)) in H. rewrite rev_involutive in H. simpl in H.
  apply drop_while_nil, forallb_rev' in H.
  destruct (drop_while_head is_ws s) as [H0|H0].
  - now apply drop_while_nil.
  - destruct (drop_while is_ws s) as [|c t] eqn:E; [now apply drop_while_nil|].
    simpl in H, H0. rewrite H0 in H. discriminate.
Qed.

Lemma trimmed_outer (l : list Z) : trimmed l -> has_outer_ws l = false.
Proof.
  intros [->|[H1 H2]]; [reflexivity|].
  destruct l as [|c t]; [reflexivity|]. simpl in *. rewrite H1. exact H2.
Qed.

(** ** Global replace *)

Lemma greplace_no_match (m : list Z -> option nat) (rep : list Z -> list Z) (s : list Z) :
  (forall c t, c <> BSL -> m (c :: t) = None) -> ~ In BSL s ->
  greplace m rep O s = s.
Proof.
  intros Hm. induction s as [|c t IH]; simpl; intros Hin; [reflexivity|].
  rewrite Hm by (intro; apply Hin; auto). f_equal. apply IH. auto.
Qed.

Lemma m_amp_bsl c t : c <> BSL -> m_amp (c :: t) = None.
Proof. intros Hc. unfold m_amp. now rewrite (proj2 (Z.eqb_neq c BSL) Hc). Qed.

Lemma m_and_bsl c t : c <> BSL -> m_and (c :: t) = None.
Proof. intros Hc. unfold m_and. now rewrite (proj2 (Z.eqb_neq c BSL) Hc). Qed.

Lemma m_ws_bsl c t : c <> BSL -> m_ws (c :: t) = None.
Proof. intros Hc. unfold m_ws. now rewrite (proj2 (Z.eqb_neq c BSL) Hc). Qed.

Lemma m_trail_bsl c t : c <> BSL -> m_trail (c :: t) = None.
Proof. intros Hc. unfold m_trail. now rewrite (proj2 (Z.eqb_neq c BSL) Hc). Qed.

Lemma m_title_bsl c t : c <> BSL -> m_title (c :: t) = None.
Proof.
  intros Hc. unfold m_title. cbn [prefixb].
  rewrite (proj2 (Z.eqb_neq BSL c)) by congruence. reflexivity.
Qed.

Lemma m_suffix_bsl c t : c <> BSL -> m_suffix (c :: t) = None.
Proof.
  intros Hc. unfold m_suffix. cbn [prefix_ci]. unfold ci_eq.
  rewrite (proj2 (Z.eqb_neq BSL c)) by congruence. reflexivity.
Qed.

Definition punct_sp (c : Z) : Z := if (c =? 46) || (c =? 44) then SP else c.

Lemma greplace_punct (s : list Z) :
  replace_all m_punct (const_rep [SP]) s = map punct_sp s.
Proof.
  unfold replace_all. induction s as [|c t IH]; simpl; [reflexivity|].
  unfold punct_sp. destruct ((c =? 46) || (c =? 44)); simpl; now rewrite IH.
Qed.

(** a replacement that maps every match to a text related code unit by code
    unit leaves the string related code unit by code unit *)
Lemma greplace_pointwise (R : Z -> Z -> Prop) (m : list Z -> option nat)
    (rep : list Z -> list Z) :
  (forall c, R c c) ->
  (forall s n, m s = Some (S n) ->
     (S n <= List.length s)%nat /\ Forall2 R (firstn (S n) s) (rep (firstn (S n) s))) ->
  forall s k, (k <= List.length s)%nat -> Forall2 R (skipn k s) (greplace m rep k s).
Proof.
  intros Hrefl Hm s. induction s as [|c t IH]; intros k Hk; simpl.
  - destruct k; constructor.
  - destruct k as [|k].
    + destruct (m (c :: t)) as [[|n]|] eqn:E.
      * constructor; [apply Hrefl|]. apply (IH O). lia.
      * destruct (Hm _ _ E) as [Hlen HR].
        simpl in Hlen.
        rewrite <- (firstn_skipn (S n) (c :: t)) at 1.
        apply Forall2_app; [exact HR|]. simpl. apply IH. lia.
      * constructor; [apply Hrefl|]. apply (IH O). lia.
    + simpl in Hk. apply IH. lia.
Qed.

Lemma Forall2_rev' {A B} (R : A -> B -> Prop) (x : list A) (y : list B) :
  Forall2 R x y -> Forall2 R (rev x) (rev y).
Proof.
  induction 1; simpl; [constructor|].
  apply Forall2_app; auto.
Qed.

Lemma Forall2_hd (R : Z -> Z -> Prop) (x y : list Z) :
  R 0 0 -> Forall2 R x y -> R (hd 0 x) (hd 0 y).
Proof. intros H0 H. destruct H; simpl; auto. Qed.

Definition same_ws (a b : Z) : Prop := is_ws a = is_ws b.

Lemma title_same_ws (s : list Z) :
  Forall2 same_ws s (replace_all m_title (map ascii_upper) s).
Proof.
  unfold replace_all. rewrite <- (skipn_O s) at 1.
  apply greplace_pointwise; [unfold same_ws; reflexivity| |simpl; lia].
  intros s0 n H. unfold m_title in H.
  destruct (prefixb [BSL; 98; BSL; 119] s0) eqn:E; [|discriminate].
  injection H as <-.
  destruct s0 as [|a [|b [|c [|d r]]]]; cbn [prefixb] in E;
    rewrite ?Bool.andb_false_r in E; try discriminate.
  repeat rewrite Bool.andb_true_iff in E. rewrite !Z.eqb_eq in E.
  repeat match goal with Hc : _ /\ _ |- _ => destruct Hc end. subst.
  split; [simpl; lia|]. cbn [firstn map].
  repeat (apply Forall2_cons; [unfold same_ws; reflexivity|]). constructor.
Qed.

Lemma title_outer (s : list Z) :
  has_outer_ws (replace_all m_title (map ascii_upper) s) = has_outer_ws s.
Proof.
  pose proof (title_same_ws s) as H.
  pose proof (Forall2_rev' _ _ _ H) as Hr.
  apply Forall2_hd in Hr; [|reflexivity].
  unfold same_ws in Hr.
  destruct H as [|a b x y Hab Hxy]; [reflexivity|].
  unfold has_outer_ws. unfold same_ws in Hab. congruence.
Qed.

Lemma not_in_map_punct (s : list Z) (x : Z) :
  x <> SP -> ~ In x s -> ~ In x (map punct_sp s).
Proof.
  intros Hx Hin H. apply in_map_iff in H as [c [Hc Hcs]].
  unfold punct_sp in Hc. destruct ((c =? 46) || (c =? 44)); [congruence|].
  subst. contradiction.
Qed.

(** On a string without backslash, step 3 only turns [.] and [,] into
    spaces and trims. *)
Lemma strip_pipeline_no_bsl (s : list Z) :
  ~ In BSL s -> strip_pipeline s = trim (map punct_sp s).
Proof.
  intros Hs. unfold strip_pipeline, replace_all.
  pose proof (not_in_map_punct s BSL ltac:(discriminate) Hs) as H1.
  fold (replace_all m_punct (const_rep [SP]) s). rewrite greplace_punct.
  rewrite (greplace_no_match m_amp) by (auto using m_amp_bsl).
  rewrite (greplace_no_match m_and) by (auto using m_and_bsl).
  rewrite (greplace_no_match m_ws _ (map punct_sp s)) by (auto using m_ws_bsl).
  assert (H2 : ~ In BSL (trim (map punct_sp s))) by (intro H; apply H1; apply in_trim; exact H).
  rewrite (greplace_no_match m_suffix _ (trim (map punct_sp s))) by (auto using m_suffix_bsl).
  rewrite (greplace_no_match m_ws _ (trim (map punct_sp s))) by (auto using m_ws_bsl).
  rewrite trim_idem.
  rewrite (greplace_no_match m_trail) by (auto using m_trail_bsl).
  rewrite trim_idem.
  rewrite (greplace_no_match m_title) by (auto using m_title_bsl).
  reflexivity.
Qed.

(** ** Names produced by [normalizeCorrespondent] *)

Lemma list_eqb_eq (a b : list Z) : list_eqb a b = true -> a = b.
Proof.
  revert b. induction a as [|x a IH]; intros [|y b]; simpl; try discriminate; auto.
  rewrite Bool.andb_true_iff, Z.eqb_eq. intros [-> H]. f_equal. auto.
Qed.

Lemma list_eqb_refl (a : list Z) : list_eqb a a = true.
Proof. induction a; simpl; auto. now rewrite Z.eqb_refl. Qed.

Lemma alias_lookup_in (tbl : list (list Z * list Z)) (l v : list Z) :
  alias_lookup tbl l = Some v -> In v (map snd tbl).
Proof.
  induction tbl as [|[k w] rest IH]; simpl; [discriminate|].
  destruct (prefixb k l); [injection 1 as ->; auto|auto].
Qed.

Lemma alias_lookup_app (pre : list (list Z * list Z)) (k v : list Z) post l :
  prefixb k l = true ->
  Forall (fun kv => prefixb (fst kv) l = false) pre ->
  alias_lookup (pre ++ (k, v) :: post) l = Some v.
Proof.
  intros Hk Hpre. induction Hpre as [|[k' v'] pre' H _ IH]; simpl in *.
  - now rewrite Hk.
  - now rewrite H.
Qed.

Lemma is_ws_char (c : Z) : is_ws c = true -> c <> BSL /\ c <> 46 /\ c <> 44.
Proof.
  unfold is_ws, BSL. intros H.
  repeat rewrite Bool.orb_true_iff in H. repeat rewrite Bool.andb_true_iff in H.
  repeat rewrite Z.leb_le in H. repeat rewrite Z.eqb_eq in H. lia.
Qed.

(** no backslash, full stop or comma, non-empty, nothing to trim *)
Definition plain_char (c : Z) : bool := negb ((c =? BSL) || (c =? 46) || (c =? 44)).

Definition canonical_form (r : list Z) : bool :=
  match r with
  | [] => false
  | _ => forallb plain_char r && negb (has_outer_ws r)
  end.

Lemma map_punct_id (l : list Z) : forallb plain_char l = true -> map punct_sp l = l.
Proof.
  induction l as [|c t IH]; simpl; [reflexivity|].
  rewrite Bool.andb_true_iff. intros [Hc Ht]. rewrite IH by exact Ht. f_equal.
  unfold plain_char in Hc. unfold punct_sp.
  destruct (c =? 46), (c =? 44); simpl in *; rewrite ?Bool.orb_true_r in Hc;
    try discriminate; reflexivity.
Qed.

Lemma forallb_plain_no_bsl (l : list Z) : forallb plain_char l = true -> ~ In BSL l.
Proof.
  rewrite forallb_forall. intros H Hin. specialize (H _ Hin).
  unfold plain_char in H. now rewrite Z.eqb_refl in H.
Qed.

Lemma alias_values_canonical : forallb canonical_form (map snd ALIASES) = true.
Proof. vm_compute. reflexivity. Qed.

Lemma Unknown_canonical : canonical_form Unknown = true.
Proof. vm_compute. reflexivity. Qed.

Section NormalizeFacts.

Variable toLowerCase : list Z -> list Z.

(** [toLowerCase] leaves a string of white space unchanged (in particular
    [''.toLowerCase() === '']) *)
Hypothesis toLowerCase_ws : forall s, forallb is_ws s = true -> toLowerCase s = s.

Let normalize := normalizeCorrespondent toLowerCase.

Lemma normalize_nonempty (v : jsval) : normalize v <> [].
Proof.
  unfold normalize, normalizeCorrespondent.
  destruct v as [| | | |[|c s]|]; try discriminate.
  destruct (alias_lookup ALIASES (trim (toLowerCase (c :: s)))) as [w|] eqn:E.
  - apply alias_lookup_in in E.
    pose proof alias_values_canonical as H. rewrite forallb_forall in H.
    specialize (H _ E). destruct w; [discriminate H|discriminate].
  - destruct (strip_pipeline (c :: s)); discriminate.
Qed.

End NormalizeFacts.

(** ** Slugs *)

Lemma no_double_hy_cons (a : Z) (l : list Z) :
  no_double_hy (a :: l) = true <->
  negb (is_hy a && is_hy (hd 0 l)) = true /\ no_double_hy l = true.
Proof.
  destruct l as [|b t]; simpl.
  - unfold is_hy, HY. destruct (a =? 45); simpl; intuition.
  - rewrite Bool.andb_true_iff. reflexivity.
Qed.

Lemma no_double_hy_app_r (p q : list Z) : no_double_hy (p ++ q) = true -> no_double_hy q = true.
Proof.
  induction p as [|a p IH]; simpl; auto.
  intros H. apply no_double_hy_cons in H as [_ H]. auto.
Qed.

Lemma no_double_hy_app_l (p q : list Z) : no_double_hy (p ++ q) = true -> no_double_hy p = true.
Proof.
  induction p as [|a p IH]; simpl; auto.
  intros H. apply no_double_hy_cons in H as [H1 H2]. apply no_double_hy_cons. split; auto.
  destruct p as [|b p']; simpl in *; auto.
  unfold is_hy. simpl. rewrite Bool.andb_false_r. reflexivity.
Qed.

Lemma hyphenate_run_head (t : list Z) : is_hy (hd 0 (hyphenate true t)) = false.
Proof.
  induction t as [|c t IH]; simpl; [reflexivity|].
  destruct (is_alnum c) eqn:E; simpl; auto.
  unfold is_hy, HY. unfold is_alnum in E.
  destruct (Z.eqb_spec c 45); [subst; discriminate|reflexivity].
Qed.

Lemma hyphenate_no_double (b : bool) (s : list Z) : no_double_hy (hyphenate b s) = true.
Proof.
  revert b. induction s as [|c t IH]; intros b; simpl; [reflexivity|].
  destruct (is_alnum c) eqn:E.
  - apply no_double_hy_cons. split; auto.
    unfold is_hy, HY. unfold is_alnum in E.
    destruct (Z.eqb_spec c 45); [subst; discriminate|reflexivity].
  - destruct b; auto.
    apply no_double_hy_cons. split; auto.
    rewrite hyphenate_run_head, Bool.andb_false_r. reflexivity.
Qed.

Lemma hyphenate_chars (b : bool) (s : list Z) :
  forallb (fun c => is_alnum c || is_hy c) (hyphenate b s) = true.
Proof.
  revert b. induction s as [|c t IH]; intros b; simpl; [reflexivity|].
  destruct (is_alnum c) eqn:E; simpl.
  - rewrite E. simpl. auto.
  - destruct b; simpl; auto.
Qed.

Lemma forallb_app_inv (f : Z -> bool) (p q : list Z) :
  forallb f (p ++ q) = true -> forallb f p = true /\ forallb f q = true.
Proof. rewrite forallb_app, Bool.andb_true_iff. auto. Qed.

Lemma strip_trailing_prefix (f : Z -> bool) (l : list Z) :
  exists r, l = rev (drop_while f (rev l)) ++ r.
Proof.
  destruct (drop_while_suffix f (rev l)) as [p Hp].
  exists (rev p). rewrite <- rev_app_distr, <- Hp, rev_involutive. reflexivity.
Qed.

(** the shape of [generateSlug]'s result *)
Lemma slug_pieces (x : list Z) :
  forallb (fun c => is_alnum c || is_hy c) x = true -> no_double_hy x = true ->
  slug_shape (firstn 50 (rev (drop_while is_hy (rev (drop_while is_hy x))))) = true.
Proof.
  intros Hc Hd.
  set (y := drop_while is_hy x).
  set (z := rev (drop_while is_hy (rev y))).
  destruct (drop_while_suffix is_hy x) as [p Hp]. fold y in Hp.
  destruct (strip_trailing_prefix is_hy y) as [r Hr]. fold z in Hr.
  pose proof (firstn_skipn 50 z) as Hz.
  set (w := firstn 50 z) in *.
  assert (Hx : x = p ++ (w ++ skipn 50 z) ++ r) by (rewrite Hz, <- Hr; exact Hp).
  unfold slug_shape. rewrite Hx in Hc, Hd.
  apply forallb_app_inv in Hc as [_ Hc]. apply forallb_app_inv in Hc as [Hc _].
  apply forallb_app_inv in Hc as [Hc _].
  apply no_double_hy_app_r, no_double_hy_app_l, no_double_hy_app_l in Hd.
  rewrite Hc, Hd.
  assert (Hlen : (List.length w <= 50)%nat) by apply firstn_le_length.
  apply Nat.leb_le in Hlen. rewrite Hlen.
  assert (Hh : is_hy (hd 0 w) = false).
  { destruct w as [|a w'] eqn:Ew; [reflexivity|].
    assert (Hzne : z <> []) by (intro E; rewrite E in Hz; discriminate).
    assert (Hyne : y <> []) by (intro E; rewrite E in Hr; destruct z; [contradiction|discriminate]).
    replace a with (hd 0 y).
    - destruct (drop_while_head is_hy x) as [E|E]; fold y in E; [contradiction|exact E].
    - rewrite Hr, hd_app by exact Hzne. rewrite <- Hz, hd_app by discriminate. reflexivity. }
  rewrite Hh. reflexivity.
Qed.

(** ** [apply_fixes] *)

Lemma dict_get_set_same (k : list Z) (v : pyjson) kv :
  dict_get k (dict_set k v kv) = Some v.
Proof.
  induction kv as [|[k' v'] rest IH]; simpl.
  - now rewrite list_eqb_refl.
  - destruct (list_eqb k k') eqn:E; simpl; rewrite ?E; auto.
Qed.

Lemma dict_get_set_other (k k2 : list Z) (v : pyjson) kv :
  list_eqb k k2 = false -> dict_get k (dict_set k2 v kv) = dict_get k kv.
Proof.
  intros Hk. induction kv as [|[k' v'] rest IH]; simpl.
  - now rewrite Hk.
  - destruct (list_eqb k2 k') eqn:E; simpl.
    + apply list_eqb_eq in E. subst k'. now rewrite Hk.
    + destruct (list_eqb k k'); auto.
Qed.

Lemma fix_node_untargeted (target : list Z) patch (n y : pyjson) :
  In target FIX_TARGETS -> targeted n = false ->
  fix_node target patch n = Some y -> y = n.
Proof.
  intros Ht Hn. destruct n as [| | | | |kv]; simpl; try discriminate.
  assert (Hname : node_name_is kv target = false).
  { destruct (node_name_is kv target) eqn:E; auto.
    unfold targeted in Hn. rewrite <- Hn. symmetry. apply existsb_exists. eauto. }
  rewrite Hname. congruence.
Qed.

(** one loop of [apply_fixes] over the node list *)
Lemma pass_frame (target : list Z) patch (l l' : list pyjson) :
  In target FIX_TARGETS ->
  map_opt (fix_node target patch) l = Some l' ->
  List.length l' = List.length l /\
  (forall i n, nth_error l i = Some n -> targeted n = false -> nth_error l' i = Some n).
Proof.
  intros Ht. revert l'. induction l as [|x rest IH]; intros l' H; simpl in H.
  - injection H as <-. split; [reflexivity|]. intros [|i] n; discriminate.
  - destruct (fix_node target patch x) as [y|] eqn:Ex; [|discriminate].
    destruct (map_opt (fix_node target patch) rest) as [ys|] eqn:Er; [|discriminate].
    injection H as <-. destruct (IH ys eq_refl) as [Hlen Hnth].
    split; [simpl; congruence|].
    intros [|i] n Hi Hn; cbn [nth_error] in Hi |- *.
    + injection Hi as <-. f_equal. eapply fix_node_untargeted; eauto.
    + auto.
Qed.

Ltac chain_pass H :=
  let Hl := fresh "Hlen" in let Hn := fresh "Hnth" in
  edestruct pass_frame as [Hl Hn]; [| exact H |]; [unfold FIX_TARGETS; simpl; tauto |].

Lemma fix_passes_frame (g1 g2 : list Z) (l l' : list pyjson) :
  fix_passes g1 g2 l = Some l' ->
  List.length l' = List.length l /\
  (forall i n, nth_error l i = Some n -> targeted n = false -> nth_error l' i = Some n).
Proof.
  unfold fix_passes. intros H.
  destruct (map_opt _ l) as [l1|] eqn:E1; [|discriminate].
  destruct (map_opt _ l1) as [l2|] eqn:E2; [|discriminate].
  destruct (map_opt _ l2) as [l3|] eqn:E3; [|discriminate].
  destruct (map_opt _ l3) as [l4|] eqn:E4; [|discriminate].
  chain_pass E1. chain_pass E2. chain_pass E3. chain_pass E4. chain_pass H.
  split; [congruence|]. intros i n Hi Hn. auto 7.
Qed.

(** ** The concrete [toLowerCase] *)

Lemma js_lower_ws (s : list Z) : forallb is_ws s = true -> js_lower s = s.
Proof.
  induction s as [|c t IH]; simpl; [reflexivity|].
  rewrite Bool.andb_true_iff. intros [Hc Ht]. rewrite IH by exact Ht. f_equal.
  unfold lower_cu.
  destruct ((65 <=? c) && (c <=? 90) || (192 <=? c) && (c <=? 222) && negb (c =? 215)) eqn:E;
    [exfalso|reflexivity].
  unfold is_ws in Hc.
  repeat rewrite Bool.orb_true_iff in Hc, E. repeat rewrite Bool.andb_true_iff in Hc, E.
  rewrite ?Bool.negb_true_iff in E.
  repeat rewrite Z.leb_le in Hc, E. repeat rewrite Z.eqb_eq in Hc. rewrite ?Z.eqb_neq in E.
  lia.
Qed.

Lemma ws_plain (l : list Z) : forallb is_ws l = true -> forallb plain_char l = true.
Proof.
  rewrite !forallb_forall. intros H x Hx. specialize (H x Hx).
  apply is_ws_char in H as [H1 [H2 H3]]. unfold plain_char.
  rewrite (proj2 (Z.eqb_neq _ _) H1), (proj2 (Z.eqb_neq _ _) H2), (proj2 (Z.eqb_neq _ _) H3).
  reflexivity.
Qed.

Lemma canonical_outer (r : list Z) : canonical_form r = true -> has_outer_ws r = false.
Proof.
  destruct r as [|c t]; [discriminate|]. unfold canonical_form.
  rewrite Bool.andb_true_iff, Bool.negb_true_iff. tauto.
Qed.

(** * Claims *)

Section Claims.

Variable toLowerCase : list Z -> list Z.
Hypothesis toLowerCase_ws : forall s, forallb is_ws s = true -> toLowerCase s = s.

(** C1: a non-string name, or a string that is empty or white space only,
    yields exactly ["Unknown"]; the function is total (no exception). *)
Theorem normalize_blank_or_nonstring (v : jsval) :
  match v with JSString s => trim s = [] | _ => True end ->
  normalizeCorrespondent toLowerCase v = Unknown.
Proof.
  destruct v as [| | | |s|]; intros H; try reflexivity.
  destruct s as [|c s']; [reflexivity|].
  pose proof (trim_nil_all_ws _ H) as Hws.
  unfold normalizeCorrespondent. rewrite (toLowerCase_ws _ Hws), H.
  replace (alias_lookup ALIASES []) with (@None (list Z)) by reflexivity.
  rewrite strip_pipeline_no_bsl by (apply forallb_plain_no_bsl, ws_plain, Hws).
  rewrite map_punct_id by (apply ws_plain, Hws).
  rewrite H. reflexivity.
Qed.

(** C2: when the lower-cased, trimmed name starts with an alias key, and
    with no earlier key of the table, the result is exactly that key's
    canonical value. *)
Theorem normalize_alias_first_match (s : list Z) pre (k v : list Z) post :
  ALIASES = pre ++ (k, v) :: post ->
  prefixb k (trim (toLowerCase s)) = true ->
  Forall (fun kv => prefixb (fst kv) (trim (toLowerCase s)) = false) pre ->
  normalizeCorrespondent toLowerCase (JSString s) = v.
Proof.
  intros Hal Hk Hpre.
  assert (Hin : In (k, v) ALIASES) by (rewrite Hal; apply in_or_app; right; left; reflexivity).
  destruct s as [|c s'].
  - rewrite (toLowerCase_ws [] eq_refl) in Hk.
    destruct k as [|x k']; [|discriminate].
    vm_compute in Hin. repeat destruct Hin as [Hin|Hin]; try discriminate Hin; destruct Hin.
  - unfold normalizeCorrespondent. rewrite Hal, alias_lookup_app by assumption.
    reflexivity.
Qed.

(** C5: the result is never empty, and an empty step-3 result gives
    ["Unknown"]. *)
Theorem normalize_never_empty :
  (forall v, normalizeCorrespondent toLowerCase v <> []) /\
  (forall s, alias_lookup ALIASES (trim (toLowerCase s)) = None ->
             strip_pipeline s = [] ->
             normalizeCorrespondent toLowerCase (JSString s) = Unknown).
Proof.
  split; [apply normalize_nonempty|].
  intros s Ha Hp. destruct s as [|c s']; [reflexivity|].
  unfold normalizeCorrespondent. rewrite Ha, Hp. reflexivity.
Qed.

(** C9: the result has no leading or trailing white space. *)
Theorem normalize_no_outer_ws (v : jsval) :
  has_outer_ws (normalizeCorrespondent toLowerCase v) = false.
Proof.
  unfold normalizeCorrespondent.
  destruct v as [| | | |[|c s]|]; try reflexivity.
  destruct (alias_lookup ALIASES (trim (toLowerCase (c :: s)))) as [w|] eqn:E.
  - apply alias_lookup_in in E. apply canonical_outer.
    pose proof alias_values_canonical as H. rewrite forallb_forall in H. auto.
  - destruct (strip_pipeline (c :: s)) as [|d t] eqn:Ep; [reflexivity|].
    rewrite <- Ep. unfold strip_pipeline. rewrite title_outer.
    apply trimmed_outer, trim_trimmed.
Qed.

End Claims.

(** C4 (amended): the slug only holds [a-z], [0-9] and [-], does not start
    with a hyphen, has no two adjacent hyphens and at most 50 code units. *)
Theorem generateSlug_shape (toLowerCase normalizeNFD : list Z -> list Z) (s : list Z) :
  slug_shape (generateSlug toLowerCase normalizeNFD s) = true.
Proof.
  unfold generateSlug. apply slug_pieces; [apply hyphenate_chars|apply hyphenate_no_double].
Qed.

(** C10: [apply_fixes] keeps the number of nodes and the [connections] entry,
    and returns every node not named by one of the five fixes unchanged. *)
Theorem apply_fixes_frame (g1 g2 : list Z) (w w' : pyjson) :
  apply_fixes g1 g2 w = Some w' ->
  List.length (nodes_of w') = List.length (nodes_of w) /\
  connections_of w' = connections_of w /\
  (forall i n, nth_error (nodes_of w) i = Some n -> targeted n = false ->
               nth_error (nodes_of w') i = Some n).
Proof.
  unfold apply_fixes. destruct w as [| | | | |kv]; try discriminate.
  destruct (dict_get (u "nodes") kv) as [nd|] eqn:En.
  - destruct nd as [| | |[|c s]|l|[|e kv']]; try discriminate;
      try (intros H; injection H as <-; auto).
    destruct (fix_passes g1 g2 l) as [l'|] eqn:Ef; [|discriminate].
    intros H; injection H as <-.
    unfold nodes_of, connections_of.
    rewrite dict_get_set_same, En, dict_get_set_other by reflexivity.
    apply fix_passes_frame in Ef. tauto.
  - intros H; injection H as <-; auto.
Qed.

(** C3: the code returns ["Acme GmbH & Co"] unchanged. *)
Theorem normalize_acme_actual :
  normalize_js (JSString (u "Acme GmbH & Co")) = u "Acme GmbH & Co".
Proof. vm_compute. reflexivity. Qed.

(** C6: the code keeps the suffix of ["Ärger GmbH"] and turns the
    combining diaeresis of ["Ärger"] into a hyphen. *)
Theorem normalize_slug_umlaut_actual :
  normalize_js (JSString ([196] ++ u "rger GmbH")) = [196] ++ u "rger GmbH" /\
  slug_js ([196] ++ u "rger") = u "a-rger".
Proof. vm_compute. split; reflexivity. Qed.

(** C7: the code leaves ["bank of america"] in lower case. *)
Theorem normalize_no_title_case_actual :
  normalize_js (JSString (u "bank of america")) = u "bank of america".
Proof. vm_compute. reflexivity. Qed.

(** C4: truncation to 50 code units can leave a trailing hyphen. *)
Lemma slug_regex_counterexample :
  slug_regex (slug_js (repeat 97 49 ++ u " b")) = false.
Proof. vm_compute. reflexivity. Qed.

(** C8: the trailing-connector regex that runs matches a literal backslash,
    then [&] or [+], then a literal backslash at the end, so each run strips one
    such ending: [a\+\\+\] gives [a\+\], and that gives [a]; both results
    are alias-free. *)
Lemma normalize_idempotence_counterexample :
  alias_lookup ALIASES (trim (js_lower (normalize_js (JSString (u "a\+\\+\"))))) = None /\
  normalize_js (JSString (normalize_js (JSString (u "a\+\\+\")))) <>
  normalize_js (JSString (u "a\+\\+\")).
Proof. vm_compute. split; [reflexivity|discriminate]. Qed.

(** ** Witnesses *)

Lemma normalize_blank_or_nonstring_witness :
  normalize_js (JSString (u "   ")) = Unknown.
Proof.
  apply (normalize_blank_or_nonstring js_lower js_lower_ws (JSString (u "   "))).
  reflexivity.
Defined.

Lemma normalize_alias_first_match_witness :
  normalize_js (JSString (u "Magenta Mobile GmbH")) = u "Magenta Telekom".
Proof.
  apply (normalize_alias_first_match js_lower js_lower_ws (u "Magenta Mobile GmbH")
           (firstn 6 ALIASES) (u "magenta") (u "Magenta Telekom") []).
  - vm_compute. reflexivity.
  - vm_compute. reflexivity.
  - vm_compute. repeat constructor.
Defined.

Lemma normalize_never_empty_witness :
  normalize_js (JSString (u " , . ")) = Unknown.
Proof.
  apply (proj2 (normalize_never_empty js_lower)); vm_compute; reflexivity.
Defined.

Lemma apply_fixes_frame_witness :
  connections_of sample_fixed = connections_of sample_workflow /\
  nth_error (nodes_of sample_fixed) 1 = nth_error (nodes_of sample_workflow) 1.
Proof.
  destruct (apply_fixes_frame [] [] sample_workflow sample_fixed ltac:(vm_compute; reflexivity))
    as [_ [Hc Hn]].
  split; [exact Hc|]. apply Hn; vm_compute; reflexivity.
Defined.

(** * Further properties of the script *)

(** ** Lemmas *)

Lemma in_firstn' {A} (n : nat) (l : list A) (x : A) : In x (firstn n l) -> In x l.
Proof.
  intros H. rewrite <- (firstn_skipn n l). apply in_or_app. auto.
Qed.

Lemma in_skipn' {A} (n : nat) (l : list A) (x : A) : In x (skipn n l) -> In x l.
Proof.
  intros H. rewrite <- (firstn_skipn n l). apply in_or_app. auto.
Qed.

(** a global replace only emits code units of its input or of a
    replacement, computed from a piece of its input *)
Lemma greplace_keeps (P : Z -> Prop) (m : list Z -> option nat) (rep : list Z -> list Z) :
  (forall t x, (forall y, In y t -> P y) -> In x (rep t) -> P x) ->
  forall s k, (forall y, In y s -> P y) -> forall x, In x (greplace m rep k s) -> P x.
Proof.
  intros Hrep s. induction s as [|c t IH]; intros k Hs x Hx; simpl in Hx; [contradiction|].
  assert (Ht : forall y, In y t -> P y) by (intros y Hy; apply Hs; right; exact Hy).
  destruct k as [|k]; simpl in Hx; [|eapply IH; eauto].
  destruct (m (c :: t)) as [[|n]|]; simpl in Hx.
  - destruct Hx as [<-|Hx]; [apply Hs; left; reflexivity|eapply IH; eauto].
  - apply in_app_or in Hx as [Hx|Hx]; [|eapply IH; eauto].
    eapply Hrep; [|exact Hx].
    intros y [<-|Hy]; apply Hs; [left; reflexivity|right; eapply in_firstn'; eauto].
  - destruct Hx as [<-|Hx]; [apply Hs; left; reflexivity|eapply IH; eauto].
Qed.

Definition no_pc (c : Z) : Prop := c <> 46 /\ c <> 44.

Lemma const_rep_no_pc (r : list Z) :
  (forall x, In x r -> no_pc x) ->
  forall t x, (forall y, In y t -> no_pc y) -> In x (const_rep r t) -> no_pc x.
Proof. intros Hr t x _ Hx. apply Hr, Hx. Qed.

Lemma SP_no_pc : forall x, In x [SP] -> no_pc x.
Proof. intros x [<-|[]]. unfold no_pc, SP. lia. Qed.

Lemma nil_no_pc : forall x, In x ([] : list Z) -> no_pc x.
Proof. intros x []. Qed.

Lemma trim_no_pc (s : list Z) :
  (forall y, In y s -> no_pc y) -> forall x, In x (trim s) -> no_pc x.
Proof. intros H x Hx. apply H, in_trim, Hx. Qed.

(** no full stop or comma survives step 3 *)
Lemma strip_pipeline_no_pc (s : list Z) : forall x, In x (strip_pipeline s) -> no_pc x.
Proof.
  unfold strip_pipeline, replace_all.
  apply (greplace_keeps no_pc).
  { intros t x Ht Hx. apply in_map_iff in Hx as [y [<- Hy]].
    specialize (Ht y Hy). unfold no_pc, ascii_upper in *.
    destruct ((97 <=? y) && (y <=? 122)) eqn:E; [|exact Ht].
    apply Bool.andb_true_iff in E as [E1 E2]. apply Z.leb_le in E1. lia. }
  apply trim_no_pc. apply (greplace_keeps no_pc _ _ (const_rep_no_pc _ nil_no_pc)).
  apply trim_no_pc. apply (greplace_keeps no_pc _ _ (const_rep_no_pc _ SP_no_pc)).
  apply (greplace_keeps no_pc _ _ (const_rep_no_pc _ nil_no_pc)).
  apply trim_no_pc. apply (greplace_keeps no_pc _ _ (const_rep_no_pc _ SP_no_pc)).
  apply (greplace_keeps no_pc _ _ (const_rep_no_pc _ SP_no_pc)).
  apply (greplace_keeps no_pc _ _ (const_rep_no_pc _ SP_no_pc)).
  fold (replace_all m_punct (const_rep [SP]) s). rewrite greplace_punct.
  intros x Hx. apply in_map_iff in Hx as [y [<- _]]. unfold no_pc, punct_sp, SP.
  destruct (Z.eqb_spec y 46), (Z.eqb_spec y 44); simpl; lia.
Qed.

Lemma canonical_no_pc (r : list Z) : canonical_form r = true -> forall x, In x r -> no_pc x.
Proof.
  destruct r as [|c t]; [discriminate|]. unfold canonical_form.
  rewrite Bool.andb_true_iff, forallb_forall. intros [H _] x Hx.
  specialize (H x Hx). unfold plain_char in H. unfold no_pc.
  destruct (Z.eqb_spec x 46), (Z.eqb_spec x 44); rewrite ?Bool.orb_true_r in H;
    simpl in H; try discriminate; lia.
Qed.

Lemma hyphenate_in (b : bool) (s : list Z) (c : Z) :
  In c (hyphenate b s) -> c = HY \/ (In c s /\ is_alnum c = true).
Proof.
  revert b. induction s as [|d t IH]; intros b H; simpl in H; [contradiction|].
  destruct (is_alnum d) eqn:Ed; [|destruct b].
  - destruct H as [<-|H]; [right; split; [left|]; auto|].
    destruct (IH _ H) as [?|[? ?]]; [left|right; split; [right|]]; auto.
  - destruct (IH _ H) as [?|[? ?]]; [left|right; split; [right|]]; auto.
  - destruct H as [<-|H]; [left; reflexivity|].
    destruct (IH _ H) as [?|[? ?]]; [left|right; split; [right|]]; auto.
Qed.

Lemma prefixb_app (p q s : list Z) : prefixb (p ++ q) s = true -> prefixb p s = true.
Proof.
  revert s. induction p as [|a p IH]; intros [|b s]; simpl; try discriminate; auto.
  rewrite !Bool.andb_true_iff. intros [H1 H2]. auto.
Qed.

(** two prefixes of one string: one is a prefix of the other *)
Lemma prefixb_both (a b l : list Z) :
  prefixb a l = true -> prefixb b l = true -> prefixb a b = true \/ prefixb b a = true.
Proof.
  revert b l. induction a as [|x a IH]; intros [|y b] [|z l]; simpl; auto; try discriminate.
  rewrite !Bool.andb_true_iff, !Z.eqb_eq. intros [-> Ha] [-> Hb].
  destruct (IH _ _ Ha Hb); [left|right]; auto.
Qed.

Lemma alias_lookup_matches (tbl : list (list Z * list Z)) (l : list Z) (k v : list Z) :
  In (k, v) tbl -> prefixb k l = true ->
  exists k' v', In (k', v') tbl /\ prefixb k' l = true /\ alias_lookup tbl l = Some v'.
Proof.
  induction tbl as [|[k1 v1] rest IH]; intros Hin Hk; [contradiction|]. simpl.
  destruct (prefixb k1 l) eqn:E.
  - exists k1, v1. auto.
  - destruct Hin as [Heq|Hin]; [injection Heq as -> ->; congruence|].
    destruct (IH Hin Hk) as [k' [v' [H1 H2]]]. exists k', v'. auto.
Qed.

Lemma prefix_consistent_spec (tbl : list (list Z * list Z)) k1 v1 k2 v2 :
  prefix_consistent tbl = true -> In (k1, v1) tbl -> In (k2, v2) tbl ->
  prefixb k1 k2 = true -> v1 = v2.
Proof.
  unfold prefix_consistent. rewrite forallb_forall. intros H H1 H2 Hp.
  specialize (H _ H1). rewrite forallb_forall in H. specialize (H _ H2).
  simpl in H. rewrite Hp in H. apply list_eqb_eq, H.
Qed.

Lemma ALIASES_prefix_consistent : prefix_consistent ALIASES = true.
Proof. vm_compute. reflexivity. Qed.

(** ** Extra properties: [normalizeCorrespondent], [generateSlug], [ALIASES] *)

(** X1: on a non-empty string without backslash that matches no alias, the
    result is the string with [.] and [,] turned into spaces and trimmed (or
    ["Unknown"] when that is empty): none of the other stripping steps
    changes anything. *)
Theorem normalize_plain_name (toLowerCase : list Z -> list Z) (s : list Z) :
  s <> [] -> ~ In BSL s -> alias_lookup ALIASES (trim (toLowerCase s)) = None ->
  normalizeCorrespondent toLowerCase (JSString s) =
  match trim (map punct_sp s) with [] => Unknown | n => n end.
Proof.
  intros Hne Hb Ha. unfold normalizeCorrespondent.
  destruct s as [|c t]; [contradiction|].
  rewrite Ha, strip_pipeline_no_bsl by exact Hb. reflexivity.
Qed.

(** X2: the result of [normalizeCorrespondent] never contains a full stop
    or a comma, whatever the input. *)
Theorem normalize_no_period_comma (toLowerCase : list Z -> list Z) (v : jsval) :
  ~ In 46 (normalizeCorrespondent toLowerCase v) /\
  ~ In 44 (normalizeCorrespondent toLowerCase v).
Proof.
  enough (H : forall x, In x (normalizeCorrespondent toLowerCase v) -> no_pc x).
  { split; intros Hin; apply H in Hin; unfold no_pc in Hin; lia. }
  unfold normalizeCorrespondent.
  destruct v as [| | | |[|c s]|]; try exact (canonical_no_pc _ Unknown_canonical).
  destruct (alias_lookup ALIASES (trim (toLowerCase (c :: s)))) as [w|] eqn:E.
  - apply alias_lookup_in in E. apply canonical_no_pc.
    pose proof alias_values_canonical as H. rewrite forallb_forall in H. auto.
  - pose proof (strip_pipeline_no_pc (c :: s)) as H.
    destruct (strip_pipeline (c :: s)); [exact (canonical_no_pc _ Unknown_canonical)|exact H].
Qed.

(** X3: a slug only holds [-] and the lower-case letters other than [f] and
    [u]: the character class meant for combining marks removes digits, [f]
    and [u] (with upper-case letters and some punctuation). *)
Theorem generateSlug_alphabet (toLowerCase normalizeNFD : list Z -> list Z) (s : list Z) (c : Z) :
  In c (generateSlug toLowerCase normalizeNFD s) ->
  c = 45 \/ (97 <= c <= 122 /\ c <> 102 /\ c <> 117).
Proof.
  unfold generateSlug. intros H.
  apply in_firstn', in_rev, in_drop_while, in_rev, in_drop_while in H.
  apply hyphenate_in in H as [H|[H Ha]]; [left; exact H|right].
  apply filter_In in H as [_ Hm]. unfold in_mark_class in Hm. unfold is_alnum in Ha.
  apply Bool.negb_true_iff in Hm.
  repeat rewrite Bool.orb_false_iff in Hm. repeat rewrite Bool.orb_true_iff in Ha.
  repeat rewrite Bool.andb_true_iff in Ha. rewrite Bool.andb_false_iff in Hm.
  rewrite !Z.leb_le, !Z.leb_gt in *. rewrite !Z.eqb_neq in Hm. lia.
Qed.

(** X4: the order of [ALIASES] never matters: whenever the lower-cased,
    trimmed name starts with a key, the result is that key's value (keys
    that are prefixes of one another have the same value). *)
Theorem alias_lookup_any_key (l k v : list Z) :
  In (k, v) ALIASES -> prefixb k l = true -> alias_lookup ALIASES l = Some v.
Proof.
  intros Hin Hk.
  destruct (alias_lookup_matches _ _ _ _ Hin Hk) as [k' [v' [Hin' [Hk' ->]]]].
  f_equal. destruct (prefixb_both _ _ _ Hk' Hk) as [H|H].
  - eapply prefix_consistent_spec; eauto using ALIASES_prefix_consistent.
  - symmetry. eapply prefix_consistent_spec; eauto using ALIASES_prefix_consistent.
Qed.

(** ** Lemmas on the Code nodes *)

Lemma dict_set_get_id (k : list Z) (v : pyjson) kv :
  dict_get k kv = Some v -> dict_set k v kv = kv.
Proof.
  induction kv as [|[k' v'] rest IH]; simpl; [discriminate|].
  destruct (list_eqb k k') eqn:E.
  - injection 1 as ->. apply list_eqb_eq in E. subst. reflexivity.
  - intros H. f_equal. auto.
Qed.

Lemma dict_set_set_get (k1 k2 k3 : list Z) (v1 v2 v3 : pyjson) kv :
  list_eqb k1 k2 = false -> list_eqb k1 k3 = false -> list_eqb k2 k3 = false ->
  let r := dict_set k3 v3 (dict_set k2 v2 (dict_set k1 v1 kv)) in
  dict_set k3 v3 (dict_set k2 v2 (dict_set k1 v1 r)) = r.
Proof.
  intros H12 H13 H23 r.
  assert (E : forall a b, list_eqb a b = false -> list_eqb b a = false).
  { intros a b H. destruct (list_eqb b a) eqn:Ba; [|reflexivity].
    apply list_eqb_eq in Ba. subst. rewrite list_eqb_refl in H. exact H. }
  rewrite (dict_set_get_id k1 v1 r).
  - rewrite (dict_set_get_id k2 v2 r).
    + apply dict_set_get_id. apply dict_get_set_same.
    + unfold r. rewrite dict_get_set_other by exact H23. apply dict_get_set_same.
  - unfold r. rewrite !dict_get_set_other by assumption. apply dict_get_set_same.
Qed.

Ltac keys_differ := vm_compute; reflexivity.

Section CodeNodeFacts.

Variable toLowerCase normalizeNFD : list Z -> list Z.
Variable to_string_other : pyjson -> list Z.
Variable ge400 : pyjson -> bool.

Let gsp := generate_storage_path toLowerCase normalizeNFD to_string_other.
Let gspi := get_storage_path_id toLowerCase ge400.

Lemma gsp_other (data : list (list Z * pyjson)) (k : list Z) :
  list_eqb k (u "correspondent_canonical") = false ->
  list_eqb k (u "storage_path_template") = false ->
  list_eqb k (u "storage_path_name") = false ->
  dict_get k (gsp data) = dict_get k data.
Proof.
  intros H1 H2 H3. unfold gsp, generate_storage_path.
  rewrite !dict_get_set_other by assumption. reflexivity.
Qed.

Lemma gsp_fields (data : list (list Z * pyjson)) :
  let category := js_str to_string_other
                    (js_or (dict_get (u "storage_category") data) (PStr (u "reference-documents"))) in
  let canon := normalizeCorrespondent toLowerCase
                 (to_jsval (js_or (dict_get (u "correspondent_name") data) (PStr Unknown))) in
  dict_get (u "correspondent_canonical") (gsp data) = Some (PStr canon) /\
  dict_get (u "storage_path_template") (gsp data) =
    Some (PStr (category ++ u "/" ++ generateSlug toLowerCase normalizeNFD canon ++ TEMPLATE_TAIL)) /\
  dict_get (u "storage_path_name") (gsp data) = Some (PStr (category ++ u " - " ++ canon)).
Proof.
  intros category canon. unfold gsp, generate_storage_path. fold category canon.
  split; [|split].
  - rewrite !dict_get_set_other by keys_differ. apply dict_get_set_same.
  - rewrite dict_get_set_other by keys_differ. apply dict_get_set_same.
  - apply dict_get_set_same.
Qed.

End CodeNodeFacts.

Lemma normalize_Unknown (toLowerCase : list Z -> list Z) :
  toLowerCase Unknown = u "unknown" ->
  normalizeCorrespondent toLowerCase (JSString Unknown) = Unknown.
Proof.
  intros Hl.
  change (normalizeCorrespondent toLowerCase (JSString Unknown)) with
    (match alias_lookup ALIASES (trim (toLowerCase Unknown)) with
     | Some value => value
     | None => match strip_pipeline Unknown with [] => Unknown | n => n end
     end).
  rewrite Hl. vm_compute. reflexivity.
Qed.

Lemma slug_Unknown (toLowerCase normalizeNFD : list Z -> list Z) :
  toLowerCase Unknown = u "unknown" -> normalizeNFD (u "unknown") = u "unknown" ->
  generateSlug toLowerCase normalizeNFD Unknown = u "nknown".
Proof.
  intros Hl Hn. unfold generateSlug. rewrite Hl, Hn. vm_compute. reflexivity.
Qed.

Lemma to_jsval_truthy_nonstring (v : pyjson) :
  truthy v = true -> (forall s, v <> PStr s) ->
  forall s, to_jsval v <> JSString s.
Proof. destruct v; simpl; try discriminate. intros _ H. exfalso. eapply H. reflexivity. Qed.

Lemma normalize_nonstring (toLowerCase : list Z -> list Z) (x : jsval) :
  (forall s, x <> JSString s) -> normalizeCorrespondent toLowerCase x = Unknown.
Proof.
  intros H. destruct x; try reflexivity. exfalso. eapply H. reflexivity.
Qed.

(** ** Extra properties: the Code nodes *)

Section CodeNodes.

Variable toLowerCase normalizeNFD : list Z -> list Z.
Variable to_string_other : pyjson -> list Z.
Variable ge400 : pyjson -> bool.

(** X5: Generate Storage Path passes every property of its input through,
    except the three it sets. *)
Theorem generate_storage_path_keeps_input (data : list (list Z * pyjson)) (k : list Z) :
  list_eqb k (u "correspondent_canonical") = false ->
  list_eqb k (u "storage_path_template") = false ->
  list_eqb k (u "storage_path_name") = false ->
  dict_get k (generate_storage_path toLowerCase normalizeNFD to_string_other data) = dict_get k data.
Proof. apply gsp_other. Qed.

(** X6: when [storage_category] is a non-empty string [c], the template is
    [c], [/], the slug of the stored canonical name and the date and title
    placeholders, and the name is [c], [ - ] and the canonical name, which is
    never empty; the slug has the slug shape. *)
Theorem generate_storage_path_template (data : list (list Z * pyjson)) (c : list Z) :
  dict_get (u "storage_category") data = Some (PStr c) -> c <> [] ->
  exists canon,
    let out := generate_storage_path toLowerCase normalizeNFD to_string_other data in
    dict_get (u "correspondent_canonical") out = Some (PStr canon) /\
    dict_get (u "storage_path_template") out =
      Some (PStr (c ++ u "/" ++ generateSlug toLowerCase normalizeNFD canon ++ TEMPLATE_TAIL)) /\
    dict_get (u "storage_path_name") out = Some (PStr (c ++ u " - " ++ canon)) /\
    canon <> [] /\ slug_shape (generateSlug toLowerCase normalizeNFD canon) = true.
Proof.
  intros Hc Hne.
  destruct (gsp_fields toLowerCase normalizeNFD to_string_other data) as [H1 [H2 H3]].
  cbv zeta in H1, H2, H3. rewrite Hc in H2, H3.
  destruct c as [|x c']; [contradiction|]. cbn [js_or truthy js_str] in H2, H3.
  eexists. split; [exact H1|]. split; [exact H2|]. split; [exact H3|].
  split; [apply normalize_nonempty|].
  unfold generateSlug. apply slug_pieces; [apply hyphenate_chars|apply hyphenate_no_double].
Qed.


(** X7: when [correspondent_name] is missing, falsy or not a string, the
    canonical name is ["Unknown"] and, [generateSlug] dropping the [u], the
    template's correspondent folder is [nknown]. *)
Theorem generate_storage_path_default_correspondent (data : list (list Z * pyjson)) :
  toLowerCase Unknown = u "unknown" -> normalizeNFD (u "unknown") = u "unknown" ->
  match dict_get (u "correspondent_name") data with
  | None => True
  | Some v => truthy v = false \/ (forall s, v <> PStr s)
  end ->
  exists category,
    let out := generate_storage_path toLowerCase normalizeNFD to_string_other data in
    dict_get (u "correspondent_canonical") out = Some (PStr Unknown) /\
    dict_get (u "storage_path_template") out = Some (PStr (category ++ u "/nknown" ++ TEMPLATE_TAIL)) /\
    dict_get (u "storage_path_name") out = Some (PStr (category ++ u " - Unknown")).
Proof.
  intros Hl Hn Hraw.
  destruct (gsp_fields toLowerCase normalizeNFD to_string_other data) as [H1 [H2 H3]].
  cbv zeta in H1, H2, H3.
  assert (Hc : normalizeCorrespondent toLowerCase
                 (to_jsval (js_or (dict_get (u "correspondent_name") data) (PStr Unknown))) = Unknown).
  { destruct (dict_get (u "correspondent_name") data) as [v|]; simpl.
    - destruct (truthy v) eqn:Tv.
      + destruct Hraw as [Hf|Hns]; [congruence|].
        apply normalize_nonstring. apply to_jsval_truthy_nonstring; assumption.
      + apply normalize_Unknown, Hl.
    - apply normalize_Unknown, Hl. }
  rewrite Hc in H1, H2, H3. rewrite (slug_Unknown _ _ Hl Hn) in H2.
  eexists. split; [exact H1|]. split; [exact H2|exact H3].
Qed.

(** X8: when [storage_category] is missing or falsy, the template and the
    name start with [reference-documents]. *)
Theorem generate_storage_path_default_category (data : list (list Z * pyjson)) :
  match dict_get (u "storage_category") data with
  | None => True
  | Some v => truthy v = false
  end ->
  exists canon slug,
    let out := generate_storage_path toLowerCase normalizeNFD to_string_other data in
    dict_get (u "storage_path_template") out =
      Some (PStr (u "reference-documents/" ++ slug ++ TEMPLATE_TAIL)) /\
    dict_get (u "storage_path_name") out = Some (PStr (u "reference-documents - " ++ canon)).
Proof.
  intros Hcat.
  destruct (gsp_fields toLowerCase normalizeNFD to_string_other data) as [_ [H2 H3]].
  cbv zeta in H2, H3.
  assert (E : js_str to_string_other
                (js_or (dict_get (u "storage_category") data) (PStr (u "reference-documents"))) =
              u "reference-documents").
  { destruct (dict_get (u "storage_category") data) as [v|]; simpl; [|reflexivity].
    rewrite Hcat. reflexivity. }
  rewrite E in H2, H3. eexists _, _. split; [exact H2|exact H3].
Qed.

(** X9: running Generate Storage Path again on its own output changes
    nothing. *)
Theorem generate_storage_path_idempotent (data : list (list Z * pyjson)) :
  let gen := generate_storage_path toLowerCase normalizeNFD to_string_other in
  gen (gen data) = gen data.
Proof.
  intros gen.
  assert (Hc : dict_get (u "storage_category") (gen data) = dict_get (u "storage_category") data)
    by (apply gsp_other; keys_differ).
  assert (Hr : dict_get (u "correspondent_name") (gen data) = dict_get (u "correspondent_name") data)
    by (apply gsp_other; keys_differ).
  unfold gen at 1. unfold generate_storage_path at 1. rewrite Hc, Hr.
  unfold gen, generate_storage_path. cbv zeta.
  apply dict_set_set_get; keys_differ.
Qed.

End CodeNodes.


Section GetStoragePathId.

Variable toLowerCase : list Z -> list Z.
Variable ge400 : pyjson -> bool.

Let get_id := get_storage_path_id toLowerCase ge400.

Lemma get_id_ok (matchResult createResult : list (list Z * pyjson)) :
  no_http_error ge400 createResult ->
  get_id matchResult createResult =
    let created :=
      match dict_get (u "id") createResult with
      | Some v => if truthy v then (Some v, u "created") else (None, u "unknown")
      | None => (None, u "unknown")
      end in
    let '(storagePathId, source) :=
      match dict_get (u "storage_path_id") matchResult with
      | Some v => if truthy v then (Some v, u "existing") else created
      | None => created
      end in
    match storagePathId with
    | Some id =>
      Returns (dict_set (u "storage_path_source") (PStr source)
                 (dict_set (u "storage_path_id") id matchResult))
    | None => Throws (ErrorMsg NO_ID_MSG)
    end.
Proof.
  unfold no_http_error, get_id, get_storage_path_id.
  destruct (dict_get (u "statusCode") createResult) as [v|]; [intros ->|]; reflexivity.
Qed.

Lemma get_id_http (matchResult createResult : list (list Z * pyjson)) v :
  dict_get (u "statusCode") createResult = Some v -> ge400 v = true ->
  get_id matchResult createResult =
    match js_or (dict_get (u "error") createResult)
                (js_or (dict_get (u "message") createResult) (PStr [])) with
    | PStr errorMsg => Throws (http_error_of toLowerCase errorMsg)
    | _ => Throws TypeError
    end.
Proof.
  intros Hs Hge. unfold get_id, get_storage_path_id. rewrite Hs, Hge.
  destruct (js_or _ _); try reflexivity. unfold http_error_of.
  destruct (_ || _); reflexivity.
Qed.

(** X10: when [statusCode >= 400], Get Storage Path ID always throws, whatever
    the match result holds. *)
Theorem get_storage_path_id_http_error_throws (matchResult createResult : list (list Z * pyjson)) v :
  dict_get (u "statusCode") createResult = Some v -> ge400 v = true ->
  exists e, get_storage_path_id toLowerCase ge400 matchResult createResult = Throws e.
Proof.
  intros Hs Hge. fold get_id. rewrite (get_id_http _ _ _ Hs Hge).
  destruct (js_or _ _); eexists; reflexivity.
Qed.

(** X11: on an HTTP error with a non-empty string [error], that string is
    the message: the duplicate error when its lower-cased form contains
    [unique constraint] or [already exists], else ["Create Storage Path HTTP
    request failed: "] followed by it ([message] is then ignored). *)
Theorem get_storage_path_id_error_field (matchResult createResult : list (list Z * pyjson)) v e :
  dict_get (u "statusCode") createResult = Some v -> ge400 v = true ->
  dict_get (u "error") createResult = Some (PStr e) -> e <> [] ->
  get_storage_path_id toLowerCase ge400 matchResult createResult = Throws (http_error_of toLowerCase e).
Proof.
  intros Hs Hge He Hne. fold get_id. rewrite (get_id_http _ _ _ Hs Hge), He.
  destruct e as [|x e]; [contradiction|reflexivity].
Qed.

(** X12: on an HTTP error whose [error] is missing or falsy, a non-empty
    string [message] is used in its place. *)
Theorem get_storage_path_id_message_fallback (matchResult createResult : list (list Z * pyjson)) v msg :
  dict_get (u "statusCode") createResult = Some v -> ge400 v = true ->
  falsy_or_missing (u "error") createResult ->
  dict_get (u "message") createResult = Some (PStr msg) -> msg <> [] ->
  get_storage_path_id toLowerCase ge400 matchResult createResult = Throws (http_error_of toLowerCase msg).
Proof.
  intros Hs Hge He Hm Hne. fold get_id. rewrite (get_id_http _ _ _ Hs Hge), Hm.
  unfold falsy_or_missing in He.
  destruct msg as [|x msg]; [contradiction|].
  destruct (dict_get (u "error") createResult) as [w|]; simpl; [rewrite He|]; reflexivity.
Qed.

(** X13: on an HTTP error with neither [error] nor [message] (missing or
    falsy), the error is ["Create Storage Path HTTP request failed: "] with
    nothing after it. *)
Theorem get_storage_path_id_no_message (matchResult createResult : list (list Z * pyjson)) v :
  toLowerCase [] = [] ->
  dict_get (u "statusCode") createResult = Some v -> ge400 v = true ->
  falsy_or_missing (u "error") createResult -> falsy_or_missing (u "message") createResult ->
  get_storage_path_id toLowerCase ge400 matchResult createResult = Throws (ErrorMsg HTTP_FAILED_PREFIX).
Proof.
  intros Hl Hs Hge He Hm. fold get_id. rewrite (get_id_http _ _ _ Hs Hge).
  unfold falsy_or_missing in He, Hm.
  replace (js_or (dict_get (u "error") createResult) (js_or (dict_get (u "message") createResult) (PStr [])))
    with (PStr []).
  - unfold http_error_of. rewrite Hl, app_nil_r. reflexivity.
  - destruct (dict_get (u "error") createResult) as [w|]; simpl; [rewrite He|];
      destruct (dict_get (u "message") createResult) as [w'|]; simpl; [rewrite Hm| |rewrite Hm|];
      reflexivity.
Qed.

(** X14: on an HTTP error whose [error] is truthy but not a string, the
    code fails with a TypeError ([errorMsg.toLowerCase] is not a function)
    instead of reporting the error. *)
Theorem get_storage_path_id_nonstring_error (matchResult createResult : list (list Z * pyjson)) v w :
  dict_get (u "statusCode") createResult = Some v -> ge400 v = true ->
  dict_get (u "error") createResult = Some w -> truthy w = true -> (forall s, w <> PStr s) ->
  get_storage_path_id toLowerCase ge400 matchResult createResult = Throws TypeError.
Proof.
  intros Hs Hge He Ht Hns. fold get_id. rewrite (get_id_http _ _ _ Hs Hge), He. simpl.
  rewrite Ht. destruct w; try reflexivity. exfalso. eapply Hns. reflexivity.
Qed.

(** X15: without HTTP error, a truthy [storage_path_id] of the match result
    wins: it is returned with source ["existing"], whatever [id] the create
    result has. *)
Theorem get_storage_path_id_existing (matchResult createResult : list (list Z * pyjson)) v :
  no_http_error ge400 createResult ->
  dict_get (u "storage_path_id") matchResult = Some v -> truthy v = true ->
  exists json,
    get_storage_path_id toLowerCase ge400 matchResult createResult = Returns json /\
    dict_get (u "storage_path_id") json = Some v /\
    dict_get (u "storage_path_source") json = Some (PStr (u "existing")).
Proof.
  intros Hok Hm Ht. fold get_id. rewrite (get_id_ok _ _ Hok). cbv zeta.
  rewrite Hm, Ht. eexists. split; [reflexivity|]. split.
  - rewrite dict_get_set_other by keys_differ. apply dict_get_set_same.
  - apply dict_get_set_same.
Qed.

(** X16: without HTTP error and without a truthy [storage_path_id] in the
    match result, a truthy [id] of the create result is returned with source
    ["created"]. *)
Theorem get_storage_path_id_created (matchResult createResult : list (list Z * pyjson)) v :
  no_http_error ge400 createResult ->
  falsy_or_missing (u "storage_path_id") matchResult ->
  dict_get (u "id") createResult = Some v -> truthy v = true ->
  exists json,
    get_storage_path_id toLowerCase ge400 matchResult createResult = Returns json /\
    dict_get (u "storage_path_id") json = Some v /\
    dict_get (u "storage_path_source") json = Some (PStr (u "created")).
Proof.
  intros Hok Hm Hc Ht. fold get_id. rewrite (get_id_ok _ _ Hok). cbv zeta.
  unfold falsy_or_missing in Hm. rewrite Hc, Ht.
  destruct (dict_get (u "storage_path_id") matchResult) as [w|]; [rewrite Hm|];
    (eexists; split; [reflexivity|]; split;
     [rewrite dict_get_set_other by keys_differ; apply dict_get_set_same|apply dict_get_set_same]).
Qed.

(** X17: without HTTP error, when neither id is truthy, the code throws
    ["Failed to get storage path ID - check previous nodes"]. *)
Theorem get_storage_path_id_missing (matchResult createResult : list (list Z * pyjson)) :
  no_http_error ge400 createResult ->
  falsy_or_missing (u "storage_path_id") matchResult -> falsy_or_missing (u "id") createResult ->
  get_storage_path_id toLowerCase ge400 matchResult createResult = Throws (ErrorMsg NO_ID_MSG).
Proof.
  intros Hok Hm Hc. fold get_id. rewrite (get_id_ok _ _ Hok). cbv zeta.
  unfold falsy_or_missing in Hm, Hc.
  destruct (dict_get (u "id") createResult) as [w|]; [rewrite Hc|];
    destruct (dict_get (u "storage_path_id") matchResult) as [w'|]; [rewrite Hm| |rewrite Hm|];
    reflexivity.
Qed.

(** X18: whenever Get Storage Path ID returns, there was no HTTP error, the
    returned [storage_path_id] is truthy and is the match result's (source
    ["existing"]) or the create result's [id] (source ["created"]), and every
    other property is the match result's. *)
Theorem get_storage_path_id_returns (matchResult createResult json : list (list Z * pyjson)) :
  get_storage_path_id toLowerCase ge400 matchResult createResult = Returns json ->
  no_http_error ge400 createResult /\
  (exists v, truthy v = true /\ dict_get (u "storage_path_id") json = Some v /\
     ((dict_get (u "storage_path_id") matchResult = Some v /\
       dict_get (u "storage_path_source") json = Some (PStr (u "existing"))) \/
      (dict_get (u "id") createResult = Some v /\
       dict_get (u "storage_path_source") json = Some (PStr (u "created"))))) /\
  (forall k, list_eqb k (u "storage_path_id") = false -> list_eqb k (u "storage_path_source") = false ->
     dict_get k json = dict_get k matchResult).
Proof.
  fold get_id. intros H.
  assert (Hok : no_http_error ge400 createResult).
  { unfold no_http_error. destruct (dict_get (u "statusCode") createResult) as [v|] eqn:Hs; [|exact I].
    destruct (ge400 v) eqn:Hge; [|reflexivity].
    rewrite (get_id_http _ _ _ Hs Hge) in H. destruct (js_or _ _); discriminate. }
  split; [exact Hok|]. rewrite (get_id_ok _ _ Hok) in H. cbv zeta in H.
  assert (Hframe : forall id src k, list_eqb k (u "storage_path_id") = false ->
            list_eqb k (u "storage_path_source") = false ->
            dict_get k (dict_set (u "storage_path_source") src (dict_set (u "storage_path_id") id matchResult))
            = dict_get k matchResult).
  { intros id src k H1 H2. rewrite !dict_get_set_other by assumption. reflexivity. }
  assert (Hget : forall id src,
            dict_get (u "storage_path_id")
              (dict_set (u "storage_path_source") src (dict_set (u "storage_path_id") id matchResult))
            = Some id /\
            dict_get (u "storage_path_source")
              (dict_set (u "storage_path_source") src (dict_set (u "storage_path_id") id matchResult))
            = Some src).
  { intros id src. rewrite dict_get_set_other by keys_differ.
    rewrite !dict_get_set_same. auto. }
  destruct (dict_get (u "storage_path_id") matchResult) as [w|] eqn:Hm;
    [destruct (truthy w) eqn:Tw|].
  - injection H as <-. destruct (Hget w (PStr (u "existing"))) as [G1 G2].
    split; [|apply Hframe]. exists w. auto.
  - destruct (dict_get (u "id") createResult) as [c|] eqn:Hc; [destruct (truthy c) eqn:Tc|];
      try discriminate.
    injection H as <-. destruct (Hget c (PStr (u "created"))) as [G1 G2].
    split; [|apply Hframe]. exists c. auto.
  - destruct (dict_get (u "id") createResult) as [c|] eqn:Hc; [destruct (truthy c) eqn:Tc|];
      try discriminate.
    injection H as <-. destruct (Hget c (PStr (u "created"))) as [G1 G2].
    split; [|apply Hframe]. exists c. auto.
Qed.

End GetStoragePathId.

(** ** Lemmas on [apply_fixes] *)

Lemma map_opt_nth (f : pyjson -> option pyjson) (l l' : list pyjson) (i : nat) (x : pyjson) :
  map_opt f l = Some l' -> nth_error l i = Some x ->
  exists y, f x = Some y /\ nth_error l' i = Some y.
Proof.
  revert l' i. induction l as [|a rest IH]; intros l' i H Hi; [destruct i; discriminate|].
  simpl in H. destruct (f a) as [y|] eqn:Ea; [|discriminate].
  destruct (map_opt f rest) as [ys|] eqn:Er; [|discriminate]. injection H as <-.
  destruct i as [|i]; simpl in Hi |- *.
  - injection Hi as <-. eauto.
  - eauto.
Qed.

Lemma map_opt_none (f : pyjson -> option pyjson) (l : list pyjson) (x : pyjson) :
  In x l -> f x = None -> map_opt f l = None.
Proof.
  induction l as [|a rest IH]; intros Hin Hx; [contradiction|]. simpl.
  destruct Hin as [<-|Hin]; [rewrite Hx; reflexivity|].
  destruct (f a); [|reflexivity]. rewrite IH by assumption. reflexivity.
Qed.

Lemma with_parameters_name f (kv kv' : list (list Z * pyjson)) (t : list Z) :
  with_parameters f kv = Some kv' -> node_name_is kv' t = node_name_is kv t.
Proof.
  unfold with_parameters.
  destruct (dict_get (u "parameters") kv) as [[| | | | |p]|]; try discriminate.
  destruct (f p) as [p'|]; [|discriminate]. injection 1 as <-.
  unfold node_name_is. rewrite dict_get_set_other by keys_differ. reflexivity.
Qed.

Lemma name_distinct (kv : list (list Z * pyjson)) (a b : list Z) :
  node_name_is kv a = true -> list_eqb a b = false -> node_name_is kv b = false.
Proof.
  unfold node_name_is. destruct (dict_get (u "name") kv) as [[| | |n| |]|]; try discriminate.
  intros Ha Hab. apply list_eqb_eq in Ha. subst. exact Hab.
Qed.

(** one loop of [apply_fixes], followed on one node *)
Lemma pass_step (t : list Z) f (l l' : list pyjson) (i : nat) kv :
  map_opt (fix_node t (with_parameters f)) l = Some l' -> nth_error l i = Some (PDict kv) ->
  exists kv', nth_error l' i = Some (PDict kv') /\
    (forall t', node_name_is kv' t' = node_name_is kv t') /\
    (node_name_is kv t = true -> with_parameters f kv = Some kv') /\
    (node_name_is kv t = false -> kv' = kv).
Proof.
  intros H Hi. destruct (map_opt_nth _ _ _ _ _ H Hi) as [y [Hy Hl']]. simpl in Hy.
  destruct (node_name_is kv t) eqn:E.
  - destruct (with_parameters f kv) as [kv'|] eqn:W; simpl in Hy; [|discriminate].
    injection Hy as <-. exists kv'. split; [exact Hl'|]. split.
    + intros t'. apply (with_parameters_name _ _ _ _ W).
    + split; [reflexivity|discriminate].
  - injection Hy as <-. exists kv. repeat split; auto. discriminate.
Qed.


(** the five loops of [apply_fixes], followed on one node: its name is
    kept, and the patch of the fix named like it has been applied to it *)
Lemma fix_passes_node (g1 g2 : list Z) (l l' : list pyjson) (i : nat) kv :
  fix_passes g1 g2 l = Some l' -> nth_error l i = Some (PDict kv) ->
  exists kv', nth_error l' i = Some (PDict kv') /\
    (forall t, node_name_is kv' t = node_name_is kv t) /\
    (node_name_is kv (u "Check Storage Paths") = true ->
       with_parameters patch_pagination kv = Some kv') /\
    (node_name_is kv (u "Generate Storage Path") = true ->
       with_parameters (patch_code g1) kv = Some kv') /\
    (node_name_is kv (u "Get Storage Path ID") = true ->
       with_parameters (patch_code g2) kv = Some kv') /\
    (node_name_is kv (u "Check Correspondent Exists") = true ->
       with_parameters (patch_replace (u "jsCode") (u "data.correspondent_name")
         (u "data.correspondent_canonical || data.correspondent_name")) kv = Some kv') /\
    (node_name_is kv (u "Create Correspondent") = true ->
       with_parameters (patch_replace (u "jsonBody") (u "$json.correspondent_name")
         (u "$json.correspondent_canonical")) kv = Some kv').
Proof.
  unfold fix_passes. intros H Hi.
  destruct (map_opt _ l) as [l1|] eqn:E1; [|discriminate].
  destruct (map_opt _ l1) as [l2|] eqn:E2; [|discriminate].
  destruct (map_opt _ l2) as [l3|] eqn:E3; [|discriminate].
  destruct (map_opt _ l3) as [l4|] eqn:E4; [|discriminate].
  destruct (pass_step _ _ _ _ _ _ E1 Hi) as [kv1 [H1 [N1 [T1 F1]]]].
  destruct (pass_step _ _ _ _ _ _ E2 H1) as [kv2 [H2 [N2 [T2 F2]]]].
  destruct (pass_step _ _ _ _ _ _ E3 H2) as [kv3 [H3 [N3 [T3 F3]]]].
  destruct (pass_step _ _ _ _ _ _ E4 H3) as [kv4 [H4 [N4 [T4 F4]]]].
  destruct (pass_step _ _ _ _ _ _ H H4) as [kv5 [H5 [N5 [T5 F5]]]].
  rewrite N1 in T2, F2. rewrite N2, N1 in T3, F3. rewrite N3, N2, N1 in T4, F4.
  rewrite N4, N3, N2, N1 in T5, F5.
  exists kv5. split; [exact H5|]. split; [intros t; rewrite N5, N4, N3, N2, N1; reflexivity|].
  assert (D : forall a b, node_name_is kv a = true -> list_eqb a b = false ->
                node_name_is kv b = false) by (intros a b; apply name_distinct).
  repeat split; intros Hn.
  - rewrite F5, F4, F3, F2 by (eapply D; [exact Hn|keys_differ]). exact (T1 Hn).
  - rewrite F5, F4, F3 by (eapply D; [exact Hn|keys_differ]).
    rewrite <- F1 at 1 by (eapply D; [exact Hn|keys_differ]). exact (T2 Hn).
  - rewrite F5, F4 by (eapply D; [exact Hn|keys_differ]).
    rewrite <- F1 at 1 by (eapply D; [exact Hn|keys_differ]).
    rewrite <- F2 at 1 by (eapply D; [exact Hn|keys_differ]). exact (T3 Hn).
  - rewrite F5 by (eapply D; [exact Hn|keys_differ]).
    rewrite <- F1 at 1 by (eapply D; [exact Hn|keys_differ]).
    rewrite <- F2 at 1 by (eapply D; [exact Hn|keys_differ]).
    rewrite <- F3 at 1 by (eapply D; [exact Hn|keys_differ]). exact (T4 Hn).
  - rewrite <- F1 at 1 by (eapply D; [exact Hn|keys_differ]).
    rewrite <- F2 at 1 by (eapply D; [exact Hn|keys_differ]).
    rewrite <- F3 at 1 by (eapply D; [exact Hn|keys_differ]).
    rewrite <- F4 at 1 by (eapply D; [exact Hn|keys_differ]). exact (T5 Hn).
Qed.

Lemma apply_fixes_nodes (g1 g2 : list Z) (w w' : pyjson) :
  apply_fixes g1 g2 w = Some w' -> fix_passes g1 g2 (nodes_of w) = Some (nodes_of w').
Proof.
  unfold apply_fixes. destruct w as [| | | | |kv]; try discriminate.
  destruct (dict_get (u "nodes") kv) as [nd|] eqn:En.
  - destruct nd as [| | |[|c s]|l|[|e kv']]; try discriminate;
      try (intros H; injection H as <-; unfold nodes_of; rewrite En; reflexivity).
    destruct (fix_passes g1 g2 l) as [l'|] eqn:Ef; [|discriminate].
    intros H; injection H as <-. unfold nodes_of. rewrite En, dict_get_set_same. exact Ef.
  - intros H; injection H as <-. unfold nodes_of. rewrite En. reflexivity.
Qed.

(** [apply_fixes] only touches [nodes] *)
Lemma apply_fixes_keys (g1 g2 : list Z) kv (w' : pyjson) :
  apply_fixes g1 g2 (PDict kv) = Some w' ->
  exists kv', w' = PDict kv' /\
    forall k, list_eqb k (u "nodes") = false -> dict_get k kv' = dict_get k kv.
Proof.
  unfold apply_fixes. destruct (dict_get (u "nodes") kv) as [nd|].
  - destruct nd as [| | |[|c s]|l|[|e kv']]; try discriminate;
      try (intros H; injection H as <-; eauto).
    destruct (fix_passes g1 g2 l); [|discriminate]. intros H; injection H as <-.
    eexists. split; [reflexivity|]. intros k Hk. apply dict_get_set_other, Hk.
  - intros H; injection H as <-. eauto.
Qed.

(** what Fixes 4 and 5 do to the parameters of a node they patch *)
Lemma with_patch_replace (key old new : list Z) kv kv' :
  with_parameters (patch_replace key old new) kv = Some kv' ->
  exists p p', dict_get (u "parameters") kv = Some (PDict p) /\
    dict_get (u "parameters") kv' = Some (PDict p') /\
    (forall c, dict_get key p = Some (PStr c) ->
       dict_get key p' = Some (PStr (if substrb (u "correspondent_name") c
                                     then py_replace old new c else c))) /\
    (forall b, dict_get key p' = Some (PStr b) ->
       exists c, dict_get key p = Some (PStr c) /\
         b = if substrb (u "correspondent_name") c then py_replace old new c else c).
Proof.
  unfold with_parameters.
  destruct (dict_get (u "parameters") kv) as [[| | | | |p]|]; try discriminate.
  destruct (patch_replace key old new p) as [p'|] eqn:Pr; [|discriminate].
  injection 1 as <-. exists p, p'. split; [reflexivity|]. split; [apply dict_get_set_same|].
  unfold patch_replace in Pr. destruct (dict_get key p) as [cur|] eqn:Hk.
  - destruct cur as [| | |c|l|d]; simpl in Pr; try discriminate.
    + destruct (substrb (u "correspondent_name") c) eqn:Sc; injection Pr as <-.
      * split; intros c' Hc'.
        -- injection Hc' as <-. rewrite Sc. apply dict_get_set_same.
        -- rewrite dict_get_set_same in Hc'. injection Hc' as <-. exists c. rewrite Sc. auto.
      * split; intros c' Hc'.
        -- injection Hc' as <-. rewrite Sc. exact Hk.
        -- rewrite Hk in Hc'. injection Hc' as <-. exists c. rewrite Sc. auto.
    + destruct (existsb _ l); [discriminate|]. injection Pr as <-.
      rewrite Hk. split; intros; discriminate.
    + destruct (existsb _ d); [discriminate|]. injection Pr as <-.
      rewrite Hk. split; intros; discriminate.
  - simpl in Pr. injection Pr as <-. rewrite Hk. split; intros; discriminate.
Qed.

(** ** Lemmas on [str.replace] *)

Lemma substrb_cons (p : list Z) (c : Z) (s : list Z) :
  substrb p (c :: s) = prefixb p (c :: s) || substrb p s.
Proof. reflexivity. Qed.

Lemma prefixb_substrb (p s : list Z) : prefixb p s = true -> substrb p s = true.
Proof. destruct s; simpl; intros H; rewrite H; reflexivity. Qed.

(** a string that holds [x ++ y] holds [y] *)
Lemma substrb_infix (x y s : list Z) : substrb (x ++ y) s = true -> substrb y s = true.
Proof.
  assert (Hp : forall s', prefixb (x ++ y) s' = true -> substrb y s' = true).
  { induction x as [|a x IH]; intros s' H; [apply prefixb_substrb, H|].
    destruct s' as [|c s']; [discriminate|]. simpl in H.
    apply Bool.andb_true_iff in H as [_ H]. rewrite substrb_cons, IH by exact H.
    apply Bool.orb_true_r. }
  induction s as [|c s IH]; intros H.
  - apply Hp. destruct (x ++ y); simpl in H |- *; [reflexivity|discriminate].
  - rewrite substrb_cons in H. apply Bool.orb_true_iff in H as [H|H].
    + apply Hp, H.
    + rewrite substrb_cons, IH by exact H. apply Bool.orb_true_r.
Qed.

Lemma prefixb_app_r (p a b : list Z) : prefixb p a = true -> prefixb p (a ++ b) = true.
Proof.
  revert a. induction p as [|x p IH]; intros [|y a]; simpl; auto; try discriminate.
  rewrite !Bool.andb_true_iff. intros [H1 H2]. auto.
Qed.

Lemma substrb_app_l (p a b : list Z) : substrb p a = true -> substrb p (a ++ b) = true.
Proof.
  induction a as [|c a IH]; intros H.
  - simpl in H. destruct p; [|discriminate]. destruct b; reflexivity.
  - simpl app. rewrite substrb_cons in H |- *. apply Bool.orb_true_iff in H as [H|H].
    + assert (H' := prefixb_app_r _ _ b H). cbn [app] in H'. rewrite H'. reflexivity.
    + rewrite IH by exact H. apply Bool.orb_true_r.
Qed.

Lemma prefixb_length (p s : list Z) : prefixb p s = true -> (List.length p <= List.length s)%nat.
Proof.
  revert s. induction p as [|x p IH]; intros [|y s]; simpl; try lia; try discriminate.
  rewrite Bool.andb_true_iff. intros [_ H]. apply IH in H. lia.
Qed.

Lemma greplace_skip (m : list Z -> option nat) (rep : list Z -> list Z) (k : nat) (s : list Z) :
  greplace m rep k s = greplace m rep O (skipn k s).
Proof.
  revert k. induction s as [|c t IH]; intros [|k]; simpl; auto.
Qed.

Lemma py_replace_nil (old new : list Z) : py_replace old new [] = [].
Proof. reflexivity. Qed.

Lemma py_replace_cons (d : Z) (J new : list Z) (c : Z) (t : list Z) :
  py_replace (d :: J) new (c :: t) =
  if prefixb (d :: J) (c :: t)
  then new ++ py_replace (d :: J) new (skipn (List.length J) t)
  else c :: py_replace (d :: J) new t.
Proof.
  unfold py_replace, replace_all. cbn [greplace]. unfold m_lit.
  destruct (prefixb (d :: J) (c :: t)); [|reflexivity].
  cbn [List.length]. unfold const_rep. rewrite greplace_skip. reflexivity.
Qed.

(** strong induction on the length of a string *)
Lemma len_ind (P : list Z -> Prop) :
  (forall s, (forall s', (List.length s' < List.length s)%nat -> P s') -> P s) -> forall s, P s.
Proof.
  intros H. assert (G : forall n s, (List.length s <= n)%nat -> P s).
  { induction n as [|n IH]; intros s Hs; apply H; intros s' Hs'; [lia|]. apply IH. lia. }
  intros s. apply (G (List.length s)). lia.
Qed.

Lemma py_replace_length (d : Z) (J new : list Z) (s : list Z) :
  (List.length (d :: J) <= List.length new)%nat ->
  (List.length s <= List.length (py_replace (d :: J) new s))%nat.
Proof.
  intros Hl. revert s. apply len_ind. intros [|c t] IH; [simpl; lia|].
  rewrite py_replace_cons. destruct (prefixb (d :: J) (c :: t)) eqn:E.
  - apply prefixb_length in E. simpl in E.
    rewrite length_app.
    assert (H := IH (skipn (List.length J) t) ltac:(rewrite length_skipn; simpl; lia)).
    rewrite length_skipn in H. simpl in Hl |- *. lia.
  - simpl. assert (H := IH t ltac:(simpl; lia)). lia.
Qed.

(** a replacement longer than the text it replaces makes a string that holds
    the text longer *)
Lemma py_replace_grows (d : Z) (J new : list Z) (s : list Z) :
  (List.length (d :: J) < List.length new)%nat -> substrb (d :: J) s = true ->
  (List.length s < List.length (py_replace (d :: J) new s))%nat.
Proof.
  intros Hl. induction s as [|c t IH]; intros H; [discriminate|].
  rewrite py_replace_cons. destruct (prefixb (d :: J) (c :: t)) eqn:E.
  - apply prefixb_length in E. simpl in E.
    rewrite length_app.
    assert (H2 := py_replace_length d J new (skipn (List.length J) t) ltac:(lia)).
    rewrite length_skipn in H2. simpl in Hl |- *. lia.
  - rewrite substrb_cons, E in H. simpl in H |- *. specialize (IH H). lia.
Qed.

(** a replacement that holds the text it replaces keeps the text in the
    string *)
Lemma py_replace_keeps (d : Z) (J new : list Z) (s : list Z) :
  substrb (d :: J) new = true -> substrb (d :: J) s = true ->
  substrb (d :: J) (py_replace (d :: J) new s) = true.
Proof.
  intros Hn. induction s as [|c t IH]; intros H; [discriminate|].
  rewrite py_replace_cons. destruct (prefixb (d :: J) (c :: t)) eqn:E.
  - apply substrb_app_l, Hn.
  - rewrite substrb_cons, E in H. rewrite substrb_cons, IH by exact H.
    apply Bool.orb_true_r.
Qed.

(** the replaced text and its replacement start with [d], which occurs
    nowhere else in them: a text without [d] starts the result exactly
    when it starts the input *)
Lemma py_replace_prefix_agree (d : Z) (J N q : list Z) :
  ~ In d q -> forall x, prefixb q (py_replace (d :: J) (d :: N) x) = prefixb q x.
Proof.
  induction q as [|a q IH]; intros Hq x; [destruct (py_replace _ _ x), x; reflexivity|].
  assert (Ha : a <> d) by (intro; apply Hq; left; auto).
  assert (Hq' : ~ In d q) by (intro; apply Hq; right; auto).
  destruct x as [|c t]; [reflexivity|].
  rewrite py_replace_cons. destruct (prefixb (d :: J) (c :: t)) eqn:E.
  - cbn [prefixb] in E. apply Bool.andb_true_iff in E as [E _]. apply Z.eqb_eq in E. subst c.
    cbn [app prefixb]. rewrite (proj2 (Z.eqb_neq a d) Ha). reflexivity.
  - cbn [prefixb]. rewrite IH by exact Hq'. reflexivity.
Qed.

Lemma substrb_app_nohead (d : Z) (J N X : list Z) :
  ~ In d N -> substrb (d :: J) (N ++ X) = substrb (d :: J) X.
Proof.
  induction N as [|a N IH]; intros H; [reflexivity|].
  simpl app. rewrite substrb_cons. cbn [prefixb].
  rewrite (proj2 (Z.eqb_neq d a)) by (intro; apply H; left; auto).
  apply IH. intro; apply H; right; auto.
Qed.

(** after the replace, the replaced text occurs nowhere *)
Lemma py_replace_removes (d : Z) (J N : list Z) :
  ~ In d J -> ~ In d N -> (forall X, prefixb (d :: J) (d :: N ++ X) = false) ->
  forall s, substrb (d :: J) (py_replace (d :: J) (d :: N) s) = false.
Proof.
  intros HJ HN Hpre. apply len_ind. intros [|c t] IH; [reflexivity|].
  rewrite py_replace_cons. destruct (prefixb (d :: J) (c :: t)) eqn:E.
  - simpl app. rewrite substrb_cons, Hpre, substrb_app_nohead by exact HN.
    apply IH. rewrite length_skipn. simpl. lia.
  - rewrite substrb_cons, IH by (simpl; lia). rewrite Bool.orb_false_r.
    cbn [prefixb] in E |- *. rewrite py_replace_prefix_agree by exact HJ. exact E.
Qed.

Lemma not_in_existsb (d : Z) (l : list Z) : existsb (Z.eqb d) l = false -> ~ In d l.
Proof.
  intros H Hin. assert (existsb (Z.eqb d) l = true) by (apply existsb_exists; exists d; split; [exact Hin|apply Z.eqb_refl]).
  congruence.
Qed.

Lemma fix4_step (g1 g2 : list Z) (w w' : pyjson) (i : nat) (c : list Z) :
  apply_fixes g1 g2 w = Some w' ->
  node_named w i (u "Check Correspondent Exists") = true ->
  node_param w i (u "jsCode") = Some (PStr c) ->
  substrb (u "data.correspondent_name") c = true ->
  node_named w' i (u "Check Correspondent Exists") = true /\
  node_param w' i (u "jsCode") =
    Some (PStr (py_replace (u "data.correspondent_name")
                  (u "data.correspondent_canonical || data.correspondent_name") c)).
Proof.
  intros Hw Hn Hp Hs. apply apply_fixes_nodes in Hw.
  unfold node_named, node_param in *.
  destruct (nth_error (nodes_of w) i) as [[| | | | |kv]|] eqn:Hi; try discriminate.
  destruct (fix_passes_node _ _ _ _ _ _ Hw Hi) as [kv' [Hi' [N [_ [_ [_ [T4 _]]]]]]].
  rewrite Hi', N. split; [exact Hn|].
  destruct (with_patch_replace _ _ _ _ _ (T4 Hn)) as [p [p' [Hp1 [Hp2 [Hc _]]]]].
  rewrite Hp1 in Hp. rewrite Hp2, (Hc _ Hp).
  replace (substrb (u "correspondent_name") c) with true; [reflexivity|].
  symmetry. apply (substrb_infix (u "data.")). exact Hs.
Qed.

(** ** Extra properties: [apply_fixes] and [main] *)

(** X19: after [apply_fixes], a node named ["Check Storage Paths"] keeps its
    name, has [sendQuery] set to [True] and [queryParameters] set to
    [page_size=1000] in its parameters, and keeps its other parameters. *)
Theorem apply_fixes_pagination (g1 g2 : list Z) (w w' : pyjson) (i : nat) :
  apply_fixes g1 g2 w = Some w' ->
  node_named w i (u "Check Storage Paths") = true ->
  node_named w' i (u "Check Storage Paths") = true /\
  node_param w' i (u "sendQuery") = Some (PBool true) /\
  node_param w' i (u "queryParameters") = Some QUERY_PARAMETERS /\
  (forall k, list_eqb k (u "sendQuery") = false -> list_eqb k (u "queryParameters") = false ->
     node_param w' i k = node_param w i k).
Proof.
  intros Hw Hn. apply apply_fixes_nodes in Hw.
  unfold node_named, node_param in *.
  destruct (nth_error (nodes_of w) i) as [[| | | | |kv]|] eqn:Hi; try discriminate.
  destruct (fix_passes_node _ _ _ _ _ _ Hw Hi) as [kv' [Hi' [N [T1 _]]]].
  rewrite Hi', N. specialize (T1 Hn). unfold with_parameters in T1.
  destruct (dict_get (u "parameters") kv) as [[| | | | |p]|]; try discriminate.
  unfold patch_pagination in T1. injection T1 as <-. rewrite dict_get_set_same.
  split; [exact Hn|]. split; [|split].
  - rewrite dict_get_set_other, dict_get_set_same by keys_differ. reflexivity.
  - apply dict_get_set_same.
  - intros k H1 H2. rewrite !dict_get_set_other by assumption. reflexivity.
Qed.

(** X20: after [apply_fixes], a node named ["Generate Storage Path"] (resp.
    ["Get Storage Path ID"]) keeps its name, has [jsCode] set to the new
    Generate Storage Path code (resp. Get Storage Path ID code), and keeps
    its other parameters. *)
Theorem apply_fixes_code_nodes (g1 g2 : list Z) (w w' : pyjson) (i : nat) (t code : list Z) :
  apply_fixes g1 g2 w = Some w' ->
  (t = u "Generate Storage Path" /\ code = g1) \/ (t = u "Get Storage Path ID" /\ code = g2) ->
  node_named w i t = true ->
  node_named w' i t = true /\
  node_param w' i (u "jsCode") = Some (PStr code) /\
  (forall k, list_eqb k (u "jsCode") = false -> node_param w' i k = node_param w i k).
Proof.
  intros Hw Ht Hn. apply apply_fixes_nodes in Hw.
  unfold node_named, node_param in *.
  destruct (nth_error (nodes_of w) i) as [[| | | | |kv]|] eqn:Hi; try discriminate.
  destruct (fix_passes_node _ _ _ _ _ _ Hw Hi) as [kv' [Hi' [N [_ [T2 [T3 _]]]]]].
  rewrite Hi', N. split; [exact Hn|].
  assert (W : with_parameters (patch_code code) kv = Some kv')
    by (destruct Ht as [[-> ->]|[-> ->]]; auto).
  unfold with_parameters in W.
  destruct (dict_get (u "parameters") kv) as [[| | | | |p]|]; try discriminate.
  unfold patch_code in W. injection W as <-. rewrite dict_get_set_same.
  split; [apply dict_get_set_same|].
  intros k Hk. apply dict_get_set_other, Hk.
Qed.

(** X21: [apply_fixes] raises when one of the five nodes it patches has no
    dict [parameters] ([node['parameters']] fails). *)
Theorem apply_fixes_bad_parameters (g1 g2 : list Z) kv (l : list pyjson) (i : nat) nkv (t : list Z) :
  dict_get (u "nodes") kv = Some (PList l) ->
  nth_error l i = Some (PDict nkv) ->
  In t FIX_TARGETS -> node_name_is nkv t = true ->
  (forall p, dict_get (u "parameters") nkv <> Some (PDict p)) ->
  apply_fixes g1 g2 (PDict kv) = None.
Proof.
  intros Hn Hi Ht Hname Hp. unfold apply_fixes. rewrite Hn.
  destruct (fix_passes g1 g2 l) as [l'|] eqn:Ef; [exfalso|reflexivity].
  destruct (fix_passes_node _ _ _ _ _ _ Ef Hi) as [kv' [_ [_ [T1 [T2 [T3 [T4 T5]]]]]]].
  assert (Hw : forall f, with_parameters f nkv = None).
  { intros f. unfold with_parameters.
    destruct (dict_get (u "parameters") nkv) as [[| | | | |p]|]; try reflexivity.
    exfalso. eapply Hp. reflexivity. }
  unfold FIX_TARGETS in Ht. cbn [map In] in Ht.
  destruct Ht as [<-|[<-|[<-|[<-|[<-|[]]]]]].
  - rewrite Hw in T1. discriminate (T1 Hname).
  - rewrite Hw in T2. discriminate (T2 Hname).
  - rewrite Hw in T3. discriminate (T3 Hname).
  - rewrite Hw in T4. discriminate (T4 Hname).
  - rewrite Hw in T5. discriminate (T5 Hname).
Qed.

(** X22: [apply_fixes] raises when [nodes] holds an element that is not a
    dict ([node.get] fails). *)
Theorem apply_fixes_non_dict_node (g1 g2 : list Z) kv (l : list pyjson) (n : pyjson) :
  dict_get (u "nodes") kv = Some (PList l) -> In n l -> (forall nkv, n <> PDict nkv) ->
  apply_fixes g1 g2 (PDict kv) = None.
Proof.
  intros Hn Hin Hd. unfold apply_fixes, fix_passes. rewrite Hn.
  rewrite (map_opt_none _ _ n Hin); [reflexivity|].
  destruct n; try reflexivity. exfalso. eapply Hd. reflexivity.
Qed.

(** X23: after [apply_fixes], the string [jsonBody] of a node named ["Create
    Correspondent"] no longer contains [$json.correspondent_name]. *)
Theorem apply_fixes_create_correspondent_body (g1 g2 : list Z) (w w' : pyjson) (i : nat) (b : list Z) :
  apply_fixes g1 g2 w = Some w' ->
  node_named w i (u "Create Correspondent") = true ->
  node_param w' i (u "jsonBody") = Some (PStr b) ->
  substrb (u "$json.correspondent_name") b = false.
Proof.
  intros Hw Hn Hb. apply apply_fixes_nodes in Hw.
  unfold node_named, node_param in *.
  destruct (nth_error (nodes_of w) i) as [[| | | | |kv]|] eqn:Hi; try discriminate.
  destruct (fix_passes_node _ _ _ _ _ _ Hw Hi) as [kv' [Hi' [_ [_ [_ [_ [_ T5]]]]]]].
  rewrite Hi' in Hb.
  destruct (with_patch_replace _ _ _ _ _ (T5 Hn)) as [p [p' [_ [Hp2 [_ Hc]]]]].
  rewrite Hp2 in Hb. destruct (Hc _ Hb) as [c [_ ->]].
  destruct (substrb (u "correspondent_name") c) eqn:Sc.
  - apply (py_replace_removes 36 (u "json.correspondent_name") (u "json.correspondent_canonical")).
    + apply not_in_existsb. reflexivity.
    + apply not_in_existsb. reflexivity.
    + intros X. reflexivity.
  - destruct (substrb (u "$json.correspondent_name") c) eqn:S; [|reflexivity].
    rewrite (substrb_infix (u "$json.") (u "correspondent_name") c S) in Sc. discriminate.
Qed.

(** X24: Fix 4 is not idempotent: running [apply_fixes] on its own output
    rewrites the [jsCode] of ["Check Correspondent Exists"] again, since the
    replacement still contains [data.correspondent_name]; the code grows on
    each run. *)
Theorem apply_fixes_check_correspondent_twice (g1 g2 : list Z) (w w1 w2 : pyjson) (i : nat) (c : list Z) :
  apply_fixes g1 g2 w = Some w1 -> apply_fixes g1 g2 w1 = Some w2 ->
  node_named w i (u "Check Correspondent Exists") = true ->
  node_param w i (u "jsCode") = Some (PStr c) ->
  substrb (u "data.correspondent_name") c = true ->
  exists c1 c2, node_param w1 i (u "jsCode") = Some (PStr c1) /\
    node_param w2 i (u "jsCode") = Some (PStr c2) /\
    (List.length c < List.length c1 < List.length c2)%nat.
Proof.
  intros H1 H2 Hn Hp Hs.
  destruct (fix4_step _ _ _ _ _ _ H1 Hn Hp Hs) as [Hn1 Hp1].
  change (u "data.correspondent_name") with (100 :: u "ata.correspondent_name") in *.
  assert (Hkeep : substrb (100 :: u "ata.correspondent_name")
                    (u "data.correspondent_canonical || data.correspondent_name") = true)
    by reflexivity.
  assert (Hlen : (List.length (100%Z :: u "ata.correspondent_name") <
                  List.length (u "data.correspondent_canonical || data.correspondent_name"))%nat)
    by (vm_compute; lia).
  pose proof (py_replace_keeps _ _ _ c Hkeep Hs) as Hs1.
  destruct (fix4_step _ _ _ _ _ _ H2 Hn1 Hp1 Hs1) as [_ Hp2].
  eexists _, _. split; [exact Hp1|]. split; [exact Hp2|].
  split; apply py_replace_grows; assumption.
Qed.

(** X25: what [main] writes: the fixed workflow with [name] set to
    ["Paperless AI Processing v14.2"] and [meta.version] set to ["14.2"];
    the other keys of [meta] and every top-level key but [name], [meta] and
    [nodes] are those of the loaded workflow. *)
Theorem main_version_update (g1 g2 : list Z) kv (w' : pyjson) :
  fix_and_version g1 g2 (PDict kv) = Some w' ->
  exists kv' m', w' = PDict kv' /\
    dict_get (u "name") kv' = Some (PStr (u "Paperless AI Processing v14.2")) /\
    dict_get (u "meta") kv' = Some (PDict m') /\
    dict_get (u "version") m' = Some (PStr (u "14.2")) /\
    (forall k, list_eqb k (u "version") = false ->
       dict_get k m' = match dict_get (u "meta") kv with Some (PDict m) => dict_get k m | _ => None end) /\
    (forall k, list_eqb k (u "name") = false -> list_eqb k (u "meta") = false ->
       list_eqb k (u "nodes") = false -> dict_get k kv' = dict_get k kv).
Proof.
  unfold fix_and_version. destruct (apply_fixes g1 g2 (PDict kv)) as [w1|] eqn:Ha; [|discriminate].
  destruct (apply_fixes_keys _ _ _ _ Ha) as [kv1 [-> Hk]].
  unfold set_version. rewrite dict_get_set_other by keys_differ.
  rewrite Hk by keys_differ.
  destruct (dict_get (u "meta") kv) as [m|] eqn:Hm.
  - destruct m as [| | | | |m]; try discriminate. intros H. injection H as <-.
    eexists _, _. split; [reflexivity|].
    split; [rewrite !dict_get_set_other by keys_differ; apply dict_get_set_same|].
    split; [apply dict_get_set_same|].
    split; [apply dict_get_set_same|].
    split; [intros k Hv; apply dict_get_set_other, Hv|].
    intros k H1 H2 H3. rewrite !dict_get_set_other by assumption. apply Hk, H3.
  - intros H. injection H as <-.
    eexists _, _. split; [reflexivity|].
    split; [rewrite !dict_get_set_other by keys_differ; apply dict_get_set_same|].
    split; [apply dict_get_set_same|].
    split; [reflexivity|].
    split; [intros k Hv; simpl; rewrite Hv; reflexivity|].
    intros k H1 H2 H3. rewrite !dict_get_set_other by assumption. apply Hk, H3.
Qed.

(** X26: [main] fails when the workflow's [meta] is present but not a dict
    (e.g. [null]): [fixed_workflow['meta']['version'] = ...] raises. *)
Theorem main_meta_not_dict (g1 g2 : list Z) kv (m : pyjson) :
  dict_get (u "meta") kv = Some m -> (forall mk, m <> PDict mk) ->
  fix_and_version g1 g2 (PDict kv) = None.
Proof.
  intros Hm Hd. unfold fix_and_version.
  destruct (apply_fixes g1 g2 (PDict kv)) as [w1|] eqn:Ha; [|reflexivity].
  destruct (apply_fixes_keys _ _ _ _ Ha) as [kv1 [-> Hk]].
  unfold set_version. rewrite dict_get_set_other by keys_differ.
  rewrite Hk, Hm by keys_differ.
  destruct m; try reflexivity. exfalso. eapply Hd. reflexivity.
Qed.

(** ** Witnesses of the extra properties *)

Lemma normalize_plain_name_witness :
  normalizeCorrespondent js_lower (JSString (u "Acme, Inc.")) = u "Acme  Inc".
Proof.
  rewrite (normalize_plain_name js_lower (u "Acme, Inc.")).
  - vm_compute. reflexivity.
  - discriminate.
  - apply not_in_existsb. reflexivity.
  - vm_compute. reflexivity.
Defined.

Lemma generateSlug_alphabet_witness :
  In 98 (slug_js (u "Uber 2024")) /\ (98 = 45 \/ (97 <= 98 <= 122 /\ 98 <> 102 /\ 98 <> 117)).
Proof.
  assert (H : In 98 (slug_js (u "Uber 2024"))) by (vm_compute; left; reflexivity).
  split; [exact H|]. exact (generateSlug_alphabet js_lower nfd_latin1 (u "Uber 2024") 98 H).
Defined.

Lemma alias_lookup_any_key_witness :
  alias_lookup ALIASES (u "magenta telekom austria") = Some (u "Magenta Telekom").
Proof.
  apply (alias_lookup_any_key (u "magenta telekom austria") (u "magenta") (u "Magenta Telekom")).
  - unfold ALIASES. cbn [map In]. do 6 right. left. reflexivity.
  - reflexivity.
Defined.

Lemma generate_storage_path_keeps_input_witness :
  dict_get (u "document_id")
    (generate_storage_path js_lower nfd_latin1 (fun _ => [])
       [(u "document_id", PNum 7); (u "correspondent_name", PStr (u "Acme GmbH"))]) = Some (PNum 7).
Proof.
  rewrite (generate_storage_path_keeps_input js_lower nfd_latin1 (fun _ => []) _ (u "document_id"))
    by keys_differ.
  reflexivity.
Defined.

Lemma generate_storage_path_default_correspondent_witness :
  exists category,
    let out := generate_storage_path js_lower nfd_latin1 (fun _ => [])
                 [(u "storage_category", PStr (u "invoices")); (u "correspondent_name", PNum 42)] in
    dict_get (u "correspondent_canonical") out = Some (PStr Unknown) /\
    dict_get (u "storage_path_template") out = Some (PStr (category ++ u "/nknown" ++ TEMPLATE_TAIL)) /\
    dict_get (u "storage_path_name") out = Some (PStr (category ++ u " - Unknown")).
Proof.
  apply (generate_storage_path_default_correspondent js_lower nfd_latin1 (fun _ => [])).
  - reflexivity.
  - reflexivity.
  - simpl. right. intros s. discriminate.
Defined.

Lemma generate_storage_path_template_witness :
  dict_get (u "storage_path_name")
    (generate_storage_path js_lower nfd_latin1 (fun _ => [])
       [(u "storage_category", PStr (u "invoices")); (u "correspondent_name", PStr (u "Acme, Inc."))]) =
  Some (PStr (u "invoices - Acme  Inc")).
Proof.
  destruct (generate_storage_path_template js_lower nfd_latin1 (fun _ => [])
              [(u "storage_category", PStr (u "invoices")); (u "correspondent_name", PStr (u "Acme, Inc."))]
              (u "invoices") ltac:(reflexivity) ltac:(discriminate))
    as [canon [H1 [_ [H3 _]]]].
  rewrite H3. vm_compute in H1. injection H1 as <-. reflexivity.
Defined.

Lemma generate_storage_path_default_category_witness :
  exists canon slug,
    let out := generate_storage_path js_lower nfd_latin1 (fun _ => [])
                 [(u "storage_category", PStr []); (u "correspondent_name", PStr (u "Acme"))] in
    dict_get (u "storage_path_template") out =
      Some (PStr (u "reference-documents/" ++ slug ++ TEMPLATE_TAIL)) /\
    dict_get (u "storage_path_name") out = Some (PStr (u "reference-documents - " ++ canon)).
Proof.
  apply (generate_storage_path_default_category js_lower nfd_latin1 (fun _ => [])).
  reflexivity.
Defined.

Lemma get_storage_path_id_http_error_throws_witness :
  exists e, get_storage_path_id js_lower ge400_num []
              [(u "statusCode", PNum 400); (u "error", PStr (u "UNIQUE constraint failed"))] = Throws e.
Proof.
  apply (get_storage_path_id_http_error_throws js_lower ge400_num _ _ (PNum 400)); reflexivity.
Defined.

Lemma get_storage_path_id_error_field_witness :
  get_storage_path_id js_lower ge400_num []
    [(u "statusCode", PNum 400); (u "error", PStr (u "UNIQUE constraint failed"));
     (u "message", PStr (u "ignored"))] = Throws (ErrorMsg DUPLICATE_MSG).
Proof.
  rewrite (get_storage_path_id_error_field js_lower ge400_num _ _ (PNum 400)
             (u "UNIQUE constraint failed")); [vm_compute; reflexivity|reflexivity|reflexivity|reflexivity|].
  discriminate.
Defined.

Lemma get_storage_path_id_message_fallback_witness :
  get_storage_path_id js_lower ge400_num []
    [(u "statusCode", PNum 500); (u "error", PStr []); (u "message", PStr (u "Internal Server Error"))]
  = Throws (ErrorMsg (HTTP_FAILED_PREFIX ++ u "Internal Server Error")).
Proof.
  rewrite (get_storage_path_id_message_fallback js_lower ge400_num _ _ (PNum 500)
             (u "Internal Server Error")); [vm_compute; reflexivity|reflexivity|reflexivity|exact eq_refl|reflexivity|].
  discriminate.
Defined.

Lemma get_storage_path_id_no_message_witness :
  get_storage_path_id js_lower ge400_num [] [(u "statusCode", PNum 502)] = Throws (ErrorMsg HTTP_FAILED_PREFIX).
Proof.
  apply (get_storage_path_id_no_message js_lower ge400_num _ _ (PNum 502)); try reflexivity; exact I.
Defined.

Lemma get_storage_path_id_nonstring_error_witness :
  get_storage_path_id js_lower ge400_num []
    [(u "statusCode", PNum 400); (u "error", PDict [(u "detail", PStr (u "bad request"))])] = Throws TypeError.
Proof.
  apply (get_storage_path_id_nonstring_error js_lower ge400_num _ _ (PNum 400)
           (PDict [(u "detail", PStr (u "bad request"))])); try reflexivity.
  intros s. discriminate.
Defined.

Lemma get_storage_path_id_existing_witness :
  exists json,
    get_storage_path_id js_lower ge400_num
      [(u "storage_path_name", PStr (u "invoices - Acme")); (u "storage_path_id", PNum 12)]
      [(u "id", PNum 99)] = Returns json /\
    dict_get (u "storage_path_id") json = Some (PNum 12) /\
    dict_get (u "storage_path_source") json = Some (PStr (u "existing")).
Proof.
  apply (get_storage_path_id_existing js_lower ge400_num); [exact I|reflexivity|reflexivity].
Defined.

Lemma get_storage_path_id_created_witness :
  exists json,
    get_storage_path_id js_lower ge400_num [(u "storage_path_id", PNull)]
      [(u "statusCode", PNum 201); (u "id", PNum 99)] = Returns json /\
    dict_get (u "storage_path_id") json = Some (PNum 99) /\
    dict_get (u "storage_path_source") json = Some (PStr (u "created")).
Proof.
  apply (get_storage_path_id_created js_lower ge400_num); [reflexivity|reflexivity|reflexivity|reflexivity].
Defined.

Lemma get_storage_path_id_missing_witness :
  get_storage_path_id js_lower ge400_num [] [(u "id", PNum 0)] = Throws (ErrorMsg NO_ID_MSG).
Proof.
  apply (get_storage_path_id_missing js_lower ge400_num); [exact I|exact I|reflexivity].
Defined.

Lemma get_storage_path_id_returns_witness :
  dict_get (u "storage_path_name")
    (dict_set (u "storage_path_source") (PStr (u "existing"))
       (dict_set (u "storage_path_id") (PNum 12)
          [(u "storage_path_name", PStr (u "invoices - Acme")); (u "storage_path_id", PNum 12)]))
  = Some (PStr (u "invoices - Acme")).
Proof.
  rewrite (proj2 (proj2 (get_storage_path_id_returns js_lower ge400_num
             [(u "storage_path_name", PStr (u "invoices - Acme")); (u "storage_path_id", PNum 12)]
             [(u "id", PNum 99)] _ eq_refl))) by keys_differ.
  reflexivity.
Defined.

Lemma apply_fixes_pagination_witness :
  node_param sample2_fixed 0 (u "sendQuery") = Some (PBool true) /\
  node_param sample2_fixed 0 (u "url") = Some (PStr (u "/api/storage_paths/")).
Proof.
  destruct (apply_fixes_pagination GEN_CODE GET_CODE sample_workflow2 sample2_fixed 0
              ltac:(vm_compute; reflexivity) ltac:(vm_compute; reflexivity)) as [_ [Hs [_ Hk]]].
  split; [exact Hs|]. rewrite Hk by keys_differ. reflexivity.
Defined.

Lemma apply_fixes_code_nodes_witness :
  node_param sample2_fixed 2 (u "jsCode") = Some (PStr GET_CODE).
Proof.
  apply (apply_fixes_code_nodes GEN_CODE GET_CODE sample_workflow2 sample2_fixed 2
           (u "Get Storage Path ID") GET_CODE).
  - vm_compute. reflexivity.
  - right. split; reflexivity.
  - vm_compute. reflexivity.
Defined.

Lemma apply_fixes_bad_parameters_witness :
  apply_fixes GEN_CODE GET_CODE
    (PDict [(u "nodes", PList [PDict [(u "name", PStr (u "Generate Storage Path"))]])]) = None.
Proof.
  apply (apply_fixes_bad_parameters GEN_CODE GET_CODE _ [PDict [(u "name", PStr (u "Generate Storage Path"))]]
           0 [(u "name", PStr (u "Generate Storage Path"))] (u "Generate Storage Path")).
  - reflexivity.
  - reflexivity.
  - unfold FIX_TARGETS. cbn [map In]. right. left. reflexivity.
  - reflexivity.
  - intros p. discriminate.
Defined.

Lemma apply_fixes_non_dict_node_witness :
  apply_fixes GEN_CODE GET_CODE (PDict [(u "nodes", PList [PStr (u "Check Storage Paths")])]) = None.
Proof.
  apply (apply_fixes_non_dict_node GEN_CODE GET_CODE _ [PStr (u "Check Storage Paths")]
           (PStr (u "Check Storage Paths"))).
  - reflexivity.
  - left. reflexivity.
  - intros nkv. discriminate.
Defined.

Lemma apply_fixes_create_correspondent_body_witness :
  substrb (u "$json.correspondent_name") (u "={{ {name: $json.correspondent_canonical} }}") = false.
Proof.
  apply (apply_fixes_create_correspondent_body GEN_CODE GET_CODE sample_workflow2 sample2_fixed 4).
  - vm_compute. reflexivity.
  - vm_compute. reflexivity.
  - vm_compute. reflexivity.
Defined.

Lemma apply_fixes_check_correspondent_twice_witness :
  exists c1 c2, node_param sample2_fixed 3 (u "jsCode") = Some (PStr c1) /\
    node_param sample2_fixed_twice 3 (u "jsCode") = Some (PStr c2) /\
    (List.length (u "const n = data.correspondent_name;") < List.length c1 < List.length c2)%nat.
Proof.
  apply (apply_fixes_check_correspondent_twice GEN_CODE GET_CODE sample_workflow2 sample2_fixed
           sample2_fixed_twice 3); vm_compute; reflexivity.
Defined.

Lemma main_version_update_witness :
  exists kv' m', sample2_written = PDict kv' /\
    dict_get (u "meta") kv' = Some (PDict m') /\
    dict_get (u "version") m' = Some (PStr (u "14.2")) /\
    dict_get (u "instanceId") m' = Some (PStr (u "abc")) /\
    dict_get (u "connections") kv' = Some (PDict []).
Proof.
  destruct (main_version_update GEN_CODE GET_CODE sample_kv2 sample2_written
              ltac:(vm_compute; reflexivity)) as [kv' [m' [H1 [_ [H3 [H4 [H5 H6]]]]]]].
  exists kv', m'. split; [exact H1|]. split; [exact H3|]. split; [exact H4|].
  rewrite H5, H6 by keys_differ. split; reflexivity.
Defined.

Lemma main_meta_not_dict_witness :
  fix_and_version GEN_CODE GET_CODE (PDict [(u "nodes", PList []); (u "meta", PNull)]) = None.
Proof.
  apply (main_meta_not_dict GEN_CODE GET_CODE _ PNull).
  - reflexivity.
  - intros mk. discriminate.
Defined.
